(** * smact.data_loader: lazily loaded, cached element data

    A shallow embedding of [smact/data_loader.py].  The module keeps one
    module-level variable per dataset (initially [None]), a module-level
    warning switch, and ten lookup functions that parse the backing file
    on their first call.  Lists and dictionaries are Python objects with an
    identity, so they live in a heap and the caches hold references. *)

From Stdlib Require Import ZArith PrimFloat Ascii.
From stdpp Require Import base option list strings gmap.

Open Scope string_scope.
Open Scope list_scope.
Set Warnings "-inexact-float".

(** ** Python values and objects *)

Abbreviation loc := nat (only parsing).

(** Immutable values: [None], integers, floats, strings, tuples of floats,
    and references to heap objects. *)
Inductive value :=
| VNone
| VInt (n : Z)
| VFloat (x : float)
| VStr (s : string)
| VTuple (xs : list float)
| VRef (l : loc).

(** Mutable objects: lists and dictionaries with string keys. *)
Inductive object :=
| OList (items : list value)
| ODict (fields : gmap string value).

(** The exceptions the module can raise. *)
Inductive exn :=
| FileNotFoundError
| StopIteration
| IndexError
| ValueError
| TypeError
| KeyError.

Inductive result (A : Type) :=
| Ok (a : A)
| Raise (e : exn).
Arguments Ok {A} a.
Arguments Raise {A} e.

(** ** Module-level variables *)

Inductive global_var :=
| _ElementOxidationStates
| _ElementCrustalAbundances
| _ElementHHIs
| _ElementOpenBabelDerivedData
| _ElementEigenvalues
| _ElementSEigenvalues
| _ElementShannonRadiiData
| _ElementSSEData
| _ElementSSE2015Data
| _ElementSSEPaulingData.

#[global] Instance global_var_eq_dec : EqDecision global_var.
Proof. solve_decision. Defined.

(** The files under [data_directory], by name.  A text file is the list of
    its lines, a CSV file the list of rows [csv.reader] yields; a name
    that is not bound is a missing file. *)
Record directory := {
  text_files : gmap string (list string);
  csv_files : gmap string (list (list string));
}.

(** The state of the process: the warning switch, the ten cache variables
    ([None] is Python's [None], [Some m] a dictionary), the object heap,
    what was printed, and the log of [open] calls. *)
Record state := {
  _PrintWarnings : bool;
  globals : global_var -> option (gmap string value);
  heap : list object;
  stdout : list string;
  opened : list string;
  data_directory : directory;
}.

Definition initial_state (dir : directory) : state :=
  {| _PrintWarnings := false;
     globals := fun _ => None;
     heap := [];
     stdout := [];
     opened := [];
     data_directory := dir |}.

(** ** A state-and-exception monad

    An exception does not undo the assignments made before it, so a
    computation returns the state in both outcomes. *)

Definition M (A : Type) : Type := state -> result A * state.

Definition ret {A} (a : A) : M A := fun s => (Ok a, s).

Definition raise {A} (e : exn) : M A := fun s => (Raise e, s).

Definition bind {A B} (m : M A) (f : A -> M B) : M B :=
  fun s =>
    match m s with
    | (Ok a, s') => f a s'
    | (Raise e, s') => (Raise e, s')
    end.

Notation "'let*' x := m 'in' k" := (bind m (fun x => k))
  (at level 10, x name, m at level 100, k at level 200).
Notation "m ;; k" := (bind m (fun _ => k))
  (at level 100, k at level 200, right associativity).

(** [for x in xs: body x] *)
Fixpoint for_each {A} (xs : list A) (body : A -> M unit) : M unit :=
  match xs with
  | [] => ret tt
  | x :: xs' => body x ;; for_each xs' body
  end.

(** [[f x for x in xs]], elements evaluated left to right *)
Fixpoint map_m {A B} (f : A -> M B) (xs : list A) : M (list B) :=
  match xs with
  | [] => ret []
  | x :: xs' => let* y := f x in let* ys := map_m f xs' in ret (y :: ys)
  end.

(** Lifting a partial builtin: failure raises [e]. *)
Definition lift {A} (e : exn) (o : option A) : M A :=
  match o with
  | Some a => ret a
  | None => raise e
  end.

(** ** Primitive operations on the state *)

Definition set_PrintWarnings (b : bool) (s : state) : state :=
  {| _PrintWarnings := b; globals := globals s; heap := heap s;
     stdout := stdout s; opened := opened s;
     data_directory := data_directory s |}.

Definition set_globals (g : global_var -> option (gmap string value))
    (s : state) : state :=
  {| _PrintWarnings := _PrintWarnings s; globals := g; heap := heap s;
     stdout := stdout s; opened := opened s;
     data_directory := data_directory s |}.

Definition set_heap (h : list object) (s : state) : state :=
  {| _PrintWarnings := _PrintWarnings s; globals := globals s; heap := h;
     stdout := stdout s; opened := opened s;
     data_directory := data_directory s |}.

Definition set_stdout (o : list string) (s : state) : state :=
  {| _PrintWarnings := _PrintWarnings s; globals := globals s;
     heap := heap s; stdout := o; opened := opened s;
     data_directory := data_directory s |}.

Definition set_opened (o : list string) (s : state) : state :=
  {| _PrintWarnings := _PrintWarnings s; globals := globals s;
     heap := heap s; stdout := stdout s; opened := o;
     data_directory := data_directory s |}.

Definition upd (g : global_var) (v : option (gmap string value))
    (f : global_var -> option (gmap string value)) :
    global_var -> option (gmap string value) :=
  fun g' => if decide (g = g') then v else f g'.

(** Reading a module-level variable. *)
Definition get_global (g : global_var) : M (option (gmap string value)) :=
  fun s => (Ok (globals s g), s).

(** [g = { }] *)
Definition assign_empty_dict (g : global_var) : M unit :=
  fun s => (Ok tt, set_globals (upd g (Some ∅) (globals s)) s).

(** [g[k] = v]; subscript assignment on [None] is a [TypeError]. *)
Definition setitem (g : global_var) (k : string) (v : value) : M unit :=
  fun s =>
    match globals s g with
    | Some m => (Ok tt, set_globals (upd g (Some (<[k := v]> m)) (globals s)) s)
    | None => (Raise TypeError, s)
    end.

(** [k in g]; membership in [None] is a [TypeError]. *)
Definition contains (g : global_var) (k : string) : M bool :=
  fun s =>
    match globals s g with
    | Some m => (Ok (bool_decide (is_Some (m !! k))), s)
    | None => (Raise TypeError, s)
    end.

(** [g[k]] *)
Definition getitem (g : global_var) (k : string) : M value :=
  fun s =>
    match globals s g with
    | Some m =>
        match m !! k with
        | Some v => (Ok v, s)
        | None => (Raise KeyError, s)
        end
    | None => (Raise TypeError, s)
    end.

(** Reading [_PrintWarnings]. *)
Definition get_PrintWarnings : M bool :=
  fun s => (Ok (_PrintWarnings s), s).

(** [print(msg)] *)
Definition print (msg : string) : M unit :=
  fun s => (Ok tt, set_stdout (stdout s ++ [msg]) s).

(** Creating a new object; its reference is the next free address. *)
Definition alloc (o : object) : M value :=
  fun s => (Ok (VRef (length (heap s))), set_heap (heap s ++ [o]) s).

(** Reading the object a value refers to. *)
Definition deref (v : value) : M object :=
  fun s =>
    match v with
    | VRef l =>
        match heap s !! l with
        | Some o => (Ok o, s)
        | None => (Raise TypeError, s)
        end
    | _ => (Raise TypeError, s)
    end.

(** Iterating over a list object: its items at the time of the call. *)
Definition list_items (v : value) : M (list value) :=
  let* o := deref v in
  match o with
  | OList xs => ret xs
  | ODict _ => raise TypeError
  end.

(** [d.copy()] on a dictionary object. *)
Definition dict_copy (v : value) : M value :=
  let* o := deref v in
  match o with
  | ODict d => alloc (ODict d)
  | OList _ => raise TypeError
  end.

(** [d[k] = x] on a dictionary object. *)
Definition dict_set (v : value) (k : string) (x : value) : M unit :=
  let* o := deref v in
  match o, v with
  | ODict d, VRef l =>
      fun s => (Ok tt, set_heap (<[l := ODict (<[k := x]> d)]> (heap s)) s)
  | _, _ => raise TypeError
  end.

(** [xs.append(x)] on a list object. *)
Definition list_append (v : value) (x : value) : M unit :=
  let* o := deref v in
  match o, v with
  | OList xs, VRef l =>
      fun s => (Ok tt, set_heap (<[l := OList (xs ++ [x])]> (heap s)) s)
  | _, _ => raise TypeError
  end.

(** [open(os.path.join(data_directory, name))] and iteration over its
    lines; every call is logged, whether or not the file exists. *)
Definition open_text (name : string) : M (list string) :=
  fun s =>
    let s' := set_opened (opened s ++ [name]) s in
    match text_files (data_directory s) !! name with
    | Some lines => (Ok lines, s')
    | None => (Raise FileNotFoundError, s')
    end.

(** [csv.reader(open(os.path.join(data_directory, name)))] *)
Definition open_csv (name : string) : M (list (list string)) :=
  fun s =>
    let s' := set_opened (opened s ++ [name]) s in
    match csv_files (data_directory s) !! name with
    | Some rows => (Ok rows, s')
    | None => (Raise FileNotFoundError, s')
    end.

(** [next(reader)]: drops one row, [StopIteration] on an exhausted
    reader. *)
Definition next (reader : list (list string)) : M (list (list string)) :=
  match reader with
  | [] => raise StopIteration
  | _ :: rest => ret rest
  end.

(** [xs[i]] on a list or a row. *)
Definition index {A} (xs : list A) (i : nat) : M A :=
  lift IndexError (xs !! i).

(** [s[i]] on a string. *)
Definition str_index (s : string) (i : nat) : M Ascii.ascii :=
  lift IndexError (String.get i s).

(** ** String methods *)

(** ASCII white space as [str.isspace] sees it. *)
Definition isspace (c : Ascii.ascii) : bool :=
  let n := Ascii.nat_of_ascii c in
  (Nat.leb 9 n && Nat.leb n 13) || (Nat.leb 28 n && Nat.leb n 32).

Fixpoint lstrip (s : string) : string :=
  match s with
  | String c s' => if isspace c then lstrip s' else s
  | EmptyString => EmptyString
  end.

Fixpoint rstrip (s : string) : string :=
  match s with
  | String c s' =>
      match rstrip s' with
      | EmptyString => if isspace c then EmptyString else String c EmptyString
      | r => String c r
      end
  | EmptyString => EmptyString
  end.

(** [s.strip()] *)
Definition strip (s : string) : string := rstrip (lstrip s).

Fixpoint split_from (word : string) (s : string) : list string :=
  match s with
  | String c s' =>
      if isspace c then
        match word with
        | EmptyString => split_from EmptyString s'
        | _ => word :: split_from EmptyString s'
        end
      else split_from (word +:+ String c EmptyString) s'
  | EmptyString =>
      match word with
      | EmptyString => []
      | _ => [word]
      end
  end.

(** [s.split()]: the maximal runs of non-space characters. *)
Definition split (s : string) : list string := split_from EmptyString s.

(** ** The module *)

Section data_loader.

(** Python's [int] and [float] constructors applied to a string; [None]
    stands for [ValueError]. *)
Variable builtin_int : string -> option Z.
Variable builtin_float : string -> option float.

Definition int (x : string) : M Z := lift ValueError (builtin_int x).
Definition float (x : string) : M PrimFloat.float :=
  lift ValueError (builtin_float x).

(** [int(items[i])] and [float(items[i])] *)
Definition int_at (items : list string) (i : nat) : M Z :=
  let* x := index items i in int x.
Definition float_at (items : list string) (i : nat) : M PrimFloat.float :=
  let* x := index items i in float x.

(** [ToggleWarnings(enable)] *)
Definition ToggleWarnings (enable : bool) : M unit :=
  fun s => (Ok tt, set_PrintWarnings enable s).

(** [if _PrintWarnings and cond: print(msg)] *)
Definition warn_if (cond : bool) (msg : string) : M unit :=
  let* w := get_PrintWarnings in
  if w && cond then print msg else ret tt.

(** The closing [else] branch of every lookup: an optional warning, then
    [None]. *)
Definition not_found (msg : string) : M value :=
  let* w := get_PrintWarnings in
  (if w then print msg else ret tt) ;;
  ret VNone.

Definition LookupElementOxidationStates (symbol : string) (copy : bool)
    : M value :=
  let* g := get_global _ElementOxidationStates in
  match g with
  | None =>
      assign_empty_dict _ElementOxidationStates ;;
      let* file := open_text "oxidation_states.txt" in
      for_each file (fun line =>
        let line := strip line in
        let* c := str_index line 0 in
        if negb (Ascii.eqb c "#"%char) then
          let items := split line in
          let* states :=
            map_m (fun oxidationState =>
                     let* n := int oxidationState in ret (VInt n))
                  (drop 1 items) in
          let* states := alloc (OList states) in
          let* key := index items 0 in
          setitem _ElementOxidationStates key states
        else ret tt)
  | Some _ => ret tt
  end ;;
  let* found := contains _ElementOxidationStates symbol in
  if found then
    if copy then
      let* cached := getitem _ElementOxidationStates symbol in
      let* items := list_items cached in
      alloc (OList items)
    else getitem _ElementOxidationStates symbol
  else
    not_found ("WARNING: Oxidation states for element " +:+ symbol
               +:+ " not found.").

Definition LookupElementCrustalAbundance (symbol : string) : M value :=
  let* g := get_global _ElementCrustalAbundances in
  match g with
  | None =>
      assign_empty_dict _ElementCrustalAbundances ;;
      let* file := open_text "crustal_abundance.txt" in
      for_each file (fun line =>
        let line := strip line in
        let* c := str_index line 0 in
        if negb (Ascii.eqb c "#"%char) then
          let items := split line in
          let* x := float_at items 1 in
          let* key := index items 0 in
          setitem _ElementCrustalAbundances key (VFloat x)
        else ret tt)
  | Some _ => ret tt
  end ;;
  let* found := contains _ElementCrustalAbundances symbol in
  if found then getitem _ElementCrustalAbundances symbol
  else
    not_found ("WARNING: Crustal-abundance data for element " +:+ symbol
               +:+ " not found.").

Definition LookupElementHHIs (symbol : string) : M value :=
  let* g := get_global _ElementHHIs in
  match g with
  | None =>
      assign_empty_dict _ElementHHIs ;;
      let* file := open_text "HHIs.txt" in
      for_each file (fun line =>
        let line := strip line in
        let* c := str_index line 0 in
        if negb (Ascii.eqb c "#"%char) then
          let items := split line in
          let* p := float_at items 1 in
          let* r := float_at items 2 in
          let* key := index items 0 in
          setitem _ElementHHIs key (VTuple [p; r])
        else ret tt)
  | Some _ => ret tt
  end ;;
  let* found := contains _ElementHHIs symbol in
  if found then getitem _ElementHHIs symbol
  else
    not_found ("WARNING: HHI data for element " +:+ symbol
               +:+ " not found.").

Definition LookupElementOpenBabelDerivedData (symbol : string) (copy : bool)
    : M value :=
  let* g := get_global _ElementOpenBabelDerivedData in
  match g with
  | None =>
      assign_empty_dict _ElementOpenBabelDerivedData ;;
      let* file := open_text "element.txt" in
      for_each file (fun line =>
        let line := strip line in
        let* c := str_index line 0 in
        if negb (Ascii.eqb c "#"%char) then
          let items := split line in
          let* key := index items 1 in
          let* dataset := alloc (ODict ∅) in
          let* number := int_at items 0 in
          dict_set dataset "Number" (VInt number) ;;
          let* areNeg := float_at items 2 in
          dict_set dataset "ARENeg" (VFloat areNeg) ;;
          let* rCov := float_at items 3 in
          warn_if (PrimFloat.eqb rCov 1.6)
            ("WARNING: Covalent radius for element " +:+ key +:+
             " may be set to the default value of 1.6 in the Open Babel-derived data.") ;;
          let* rCov' := float_at items 3 in
          dict_set dataset "RCov" (VFloat rCov') ;;
          let* rBO := float_at items 4 in
          dict_set dataset "RBO" (VFloat rBO) ;;
          let* rVDW := float_at items 5 in
          dict_set dataset "RVdW" (VFloat rVDW) ;;
          let* maxBnd := int_at items 6 in
          dict_set dataset "MaxBnd" (VInt maxBnd) ;;
          let* mass := float_at items 7 in
          dict_set dataset "Mass" (VFloat mass) ;;
          let* elNeg := float_at items 8 in
          warn_if (PrimFloat.eqb elNeg 0.0)
            ("WARNING: Pauling electronegativity for " +:+ key +:+
             " may be set to the default of zero in the Open Babel-derived data.") ;;
          dict_set dataset "ElNeg." (VFloat elNeg) ;;
          let* ionization := float_at items 9 in
          warn_if (PrimFloat.eqb ionization 0.0)
            ("WARNING: Ionisation potential for " +:+ key +:+
             " may be set to the default of zero in the Open Babel-derived data.") ;;
          dict_set dataset "Ionization" (VFloat ionization) ;;
          let* elAffinity := float_at items 10 in
          warn_if (PrimFloat.eqb elAffinity 0.0)
            ("WARNING: Electron affinity for " +:+ key +:+
             " may be set to the default of zero in the Open Babel-derived data.") ;;
          dict_set dataset "ElAffinity" (VFloat elAffinity) ;;
          let* r := float_at items 11 in
          let* g := float_at items 12 in
          let* b := float_at items 13 in
          dict_set dataset "RGB" (VTuple [r; g; b]) ;;
          let* name := index items 14 in
          dict_set dataset "Name" (VStr name) ;;
          let* key' := index items 1 in
          setitem _ElementOpenBabelDerivedData key' dataset
        else ret tt)
  | Some _ => ret tt
  end ;;
  let* found := contains _ElementOpenBabelDerivedData symbol in
  if found then
    if copy then
      let* cached := getitem _ElementOpenBabelDerivedData symbol in
      dict_copy cached
    else getitem _ElementOpenBabelDerivedData symbol
  else
    not_found ("WARNING: Open Babel-derived element data for " +:+ symbol
               +:+ " not found.").

Definition LookupElementEigenvalue (symbol : string) : M value :=
  let* g := get_global _ElementEigenvalues in
  match g with
  | None =>
      assign_empty_dict _ElementEigenvalues ;;
      let* reader := open_csv "Eigenvalues.csv" in
      let* reader := next reader in
      for_each reader (fun row =>
        let* x := float_at row 1 in
        let* key := index row 0 in
        setitem _ElementEigenvalues key (VFloat x))
  | Some _ => ret tt
  end ;;
  let* found := contains _ElementEigenvalues symbol in
  if found then getitem _ElementEigenvalues symbol
  else
    not_found ("WARNING: Eigenvalue data for element " +:+ symbol
               +:+ " not found.").

(** The loop of this loader assigns into [_ElementEigenvalues], as the
    source does. *)
Definition LookupElementSEigenvalue (symbol : string) : M value :=
  let* g := get_global _ElementSEigenvalues in
  match g with
  | None =>
      assign_empty_dict _ElementSEigenvalues ;;
      let* reader := open_csv "Eigenvalues_s.csv" in
      let* reader := next reader in
      for_each reader (fun row =>
        let* x := float_at row 1 in
        let* key := index row 0 in
        setitem _ElementEigenvalues key (VFloat x))
  | Some _ => ret tt
  end ;;
  let* found := contains _ElementSEigenvalues symbol in
  if found then getitem _ElementSEigenvalues symbol
  else
    not_found ("WARNING: s-eigenvalue data for element " +:+ symbol
               +:+ " not found.").

Definition LookupElementShannonRadiusData (symbol : string) (copy : bool)
    : M value :=
  let* g := get_global _ElementShannonRadiiData in
  match g with
  | None =>
      assign_empty_dict _ElementShannonRadiiData ;;
      let* reader := open_csv "shannon_radii.csv" in
      let* reader := next reader in
      for_each reader (fun row =>
        let* key := index row 0 in
        let* charge := int_at row 1 in
        let* coordination := index row 2 in
        let* crystal_radius := float_at row 3 in
        let* ionic_radius := float_at row 4 in
        let* comment := index row 5 in
        let* dataset :=
          alloc (ODict (list_to_map
            [("charge", VInt charge);
             ("coordination", VStr coordination);
             ("crystal_radius", VFloat crystal_radius);
             ("ionic_radius", VFloat ionic_radius);
             ("comment", VStr comment)])) in
        let* present := contains _ElementShannonRadiiData key in
        if present then
          let* datasets := getitem _ElementShannonRadiiData key in
          list_append datasets dataset
        else
          let* datasets := alloc (OList [dataset]) in
          setitem _ElementShannonRadiiData key datasets)
  | Some _ => ret tt
  end ;;
  let* found := contains _ElementShannonRadiiData symbol in
  if found then
    if copy then
      let* cached := getitem _ElementShannonRadiiData symbol in
      let* items := list_items cached in
      let* copies := map_m dict_copy items in
      alloc (OList copies)
    else getitem _ElementShannonRadiiData symbol
  else
    not_found ("WARNING: Shannon-radius data for element " +:+ symbol
               +:+ " not found.").

Definition LookupElementSSEData (symbol : string) : M value :=
  let* g := get_global _ElementSSEData in
  match g with
  | None =>
      assign_empty_dict _ElementSSEData ;;
      let* reader := open_csv "SSE.csv" in
      for_each reader (fun row =>
        let* number := int_at row 1 in
        let* sse := float_at row 2 in
        let* ip := float_at row 3 in
        let* ea := float_at row 4 in
        let* mulliken := float_at row 5 in
        let* renorm := float_at row 6 in
        let* dataset :=
          alloc (ODict (list_to_map
            [("AtomicNumber", VInt number);
             ("SolidStateEnergy", VFloat sse);
             ("IonisationPotential", VFloat ip);
             ("ElectronAffinity", VFloat ea);
             ("MullikenElectronegativity", VFloat mulliken);
             ("SolidStateRenormalisationEnergy", VFloat renorm)])) in
        let* key := index row 0 in
        setitem _ElementSSEData key dataset)
  | Some _ => ret tt
  end ;;
  let* found := contains _ElementSSEData symbol in
  if found then getitem _ElementSSEData symbol
  else
    not_found ("WARNING: Solid-state energy data for element " +:+ symbol
               +:+ " not found.").

Definition LookupElementSSE2015Data (symbol : string) (copy : bool)
    : M value :=
  let* g := get_global _ElementSSE2015Data in
  match g with
  | None =>
      assign_empty_dict _ElementSSE2015Data ;;
      let* reader := open_csv "SSE_2015.csv" in
      for_each reader (fun row =>
        let* key := index row 0 in
        let* state := int_at row 1 in
        let* sse := float_at row 2 in
        let* dataset :=
          alloc (ODict (list_to_map
            [("OxidationState", VInt state);
             ("SolidStateEnergy2015", VFloat sse)])) in
        let* present := contains _ElementSSE2015Data key in
        if present then
          let* datasets := getitem _ElementSSE2015Data key in
          list_append datasets dataset
        else
          let* datasets := alloc (OList [dataset]) in
          setitem _ElementSSE2015Data key datasets)
  | Some _ => ret tt
  end ;;
  let* found := contains _ElementSSE2015Data symbol in
  if found then
    if copy then
      let* cached := getitem _ElementSSE2015Data symbol in
      let* items := list_items cached in
      let* copies := map_m dict_copy items in
      alloc (OList copies)
    else getitem _ElementSSE2015Data symbol
  else
    not_found ("WARNING: Solid-state energy (revised 2015) data for element "
               +:+ symbol +:+ " not found.").

Definition LookupElementSSEPaulingData (symbol : string) : M value :=
  let* g := get_global _ElementSSEPaulingData in
  match g with
  | None =>
      assign_empty_dict _ElementSSEPaulingData ;;
      let* reader := open_csv "SSE_Pauling.csv" in
      for_each reader (fun row =>
        let* sse := float_at row 1 in
        let* dataset :=
          alloc (ODict (list_to_map
            [("SolidStateEnergyPauling", VFloat sse)])) in
        let* key := index row 0 in
        setitem _ElementSSEPaulingData key dataset)
  | Some _ => ret tt
  end ;;
  let* found := contains _ElementSSEPaulingData symbol in
  if found then getitem _ElementSSEPaulingData symbol
  else
    not_found ("WARNING: Solid-state energy data from Pauling electronegativity regression fit for element "
               +:+ symbol +:+ " not found.").

(** The lookup function that owns each cache variable.  Six of them take
    no [copy] argument; the flag is then not passed on. *)
Definition lookup (g : global_var) (symbol : string) (copy : bool)
    : M value :=
  match g with
  | _ElementOxidationStates => LookupElementOxidationStates symbol copy
  | _ElementCrustalAbundances => LookupElementCrustalAbundance symbol
  | _ElementHHIs => LookupElementHHIs symbol
  | _ElementOpenBabelDerivedData =>
      LookupElementOpenBabelDerivedData symbol copy
  | _ElementEigenvalues => LookupElementEigenvalue symbol
  | _ElementSEigenvalues => LookupElementSEigenvalue symbol
  | _ElementShannonRadiiData => LookupElementShannonRadiusData symbol copy
  | _ElementSSEData => LookupElementSSEData symbol
  | _ElementSSE2015Data => LookupElementSSE2015Data symbol copy
  | _ElementSSEPaulingData => LookupElementSSEPaulingData symbol
  end.

End data_loader.

(** ** Readers of plain decimal literals

    The statements below hold for every reading of [int] and [float]; the
    worked examples instantiate them with these two, which agree with
    Python on an optional sign followed by digits and, for [float], an
    optional fraction. *)

Definition digit (c : Ascii.ascii) : option Z :=
  let n := Ascii.nat_of_ascii c in
  if Nat.leb 48 n && Nat.leb n 57 then Some (Z.of_nat (n - 48)) else None.

(** The digits of [s] read in base ten onto [acc], with their number. *)
Fixpoint digits (acc : Z) (count : nat) (s : string) : option (Z * nat) :=
  match s with
  | EmptyString => Some (acc, count)
  | String c s' =>
      match digit c with
      | Some d => digits (10 * acc + d)%Z (S count) s'
      | None => None
      end
  end.

Definition unsigned (s : string) : option Z :=
  match s with
  | EmptyString => None
  | _ => fst <$> digits 0 0 s
  end.

Definition decimal_int (s : string) : option Z :=
  match s with
  | String "-" s' => Z.opp <$> unsigned s'
  | String "+" s' => unsigned s'
  | _ => unsigned s
  end.

Fixpoint float_of_positive (p : positive) : PrimFloat.float :=
  match p with
  | xH => 1
  | xO p' => 2 * float_of_positive p'
  | xI p' => 2 * float_of_positive p' + 1
  end%float.

Definition float_of_Z (z : Z) : PrimFloat.float :=
  match z with
  | Z0 => 0
  | Zpos p => float_of_positive p
  | Zneg p => - float_of_positive p
  end%float.

(** The text before and after the first ["."]. *)
Fixpoint cut_at_point (s : string) : string * option string :=
  match s with
  | EmptyString => (EmptyString, None)
  | String c s' =>
      if Ascii.eqb c "."%char then (EmptyString, Some s')
      else let '(a, b) := cut_at_point s' in (String c a, b)
  end.

Definition unsigned_float (s : string) : option PrimFloat.float :=
  match cut_at_point s with
  | (whole, None) => float_of_Z <$> unsigned whole
  | (whole, Some frac) =>
      match digits 0 0 whole, digits 0 0 frac with
      | Some (w, nw), Some (f, nf) =>
          if Nat.eqb (nw + nf) 0 then None
          else Some (float_of_Z (w * 10 ^ Z.of_nat nf + f)
                     / float_of_Z (10 ^ Z.of_nat nf))%float
      | _, _ => None
      end
  end.

Definition decimal_float (s : string) : option PrimFloat.float :=
  match s with
  | String "-" s' => PrimFloat.opp <$> unsigned_float s'
  | String "+" s' => unsigned_float s'
  | _ => unsigned_float s
  end.

(** ** What a call may change *)

(** [frame s s']: the part of the state that no step of a lookup other
    than [open] touches, and the ways the rest may only grow. *)
Record frame (s s' : state) : Prop := {
  frame_opened : opened s' = opened s;
  frame_directory : data_directory s' = data_directory s;
  frame_warnings : _PrintWarnings s' = _PrintWarnings s;
  frame_globals : forall g, is_Some (globals s g) -> is_Some (globals s' g);
  frame_heap : length (heap s) <= length (heap s');
  frame_stdout : _PrintWarnings s = false -> stdout s' = stdout s;
}.

(** [reads s s']: in addition the cache variables are the same and every
    object that existed is unchanged; only new objects and output are
    added. *)
Record reads (s s' : state) : Prop := {
  reads_frame : frame s s';
  reads_globals : globals s' = globals s;
  reads_heap : heap s `prefix_of` heap s';
}.

Definition framed {A} (m : M A) : Prop := forall s, frame s (m s).2.

Definition reading {A} (m : M A) : Prop := forall s, reads s (m s).2.

(** The name each loader passes to [open]. *)
Definition backing_file (g : global_var) : string :=
  match g with
  | _ElementOxidationStates => "oxidation_states.txt"
  | _ElementCrustalAbundances => "crustal_abundance.txt"
  | _ElementHHIs => "HHIs.txt"
  | _ElementOpenBabelDerivedData => "element.txt"
  | _ElementEigenvalues => "Eigenvalues.csv"
  | _ElementSEigenvalues => "Eigenvalues_s.csv"
  | _ElementShannonRadiiData => "shannon_radii.csv"
  | _ElementSSEData => "SSE.csv"
  | _ElementSSE2015Data => "SSE_2015.csv"
  | _ElementSSEPaulingData => "SSE_Pauling.csv"
  end.

(** [opens name g m]: [m] calls [open] exactly once, on [name], leaves [g]
    bound to a dictionary whatever its outcome, and otherwise stays within
    the frame. *)
Definition opens {A} (name : string) (g : global_var) (m : M A) : Prop :=
  forall s,
    frame (set_opened (opened s ++ [name]) s) (m s).2 /\
    is_Some (globals (m s).2 g).

(** ** Runs of a client *)

(** What a client of the module can do: flip the warning switch or look a
    symbol up in one of the datasets.  An exception is the client's to
    handle; the module state it leaves behind is where the next call
    starts. *)
Inductive call :=
| CallToggleWarnings (enable : bool)
| CallLookup (g : global_var) (symbol : string) (copy : bool).

Section runs.

Variable builtin_int : string -> option Z.
Variable builtin_float : string -> option PrimFloat.float.

Definition perform (s : state) (c : call) : state :=
  match c with
  | CallToggleWarnings enable => (ToggleWarnings enable s).2
  | CallLookup g symbol copy =>
      (lookup builtin_int builtin_float g symbol copy s).2
  end.

Definition run (calls : list call) (s : state) : state :=
  foldl perform s calls.

End runs.

(** How often [name] was passed to [open] so far. *)
Definition times_opened (name : string) (s : state) : nat :=
  length (filter (fun f => f = name) (opened s)).

(** ** Sample data directories *)

(** Both eigenvalue files, well formed, with the same two elements. *)
Definition eigenvalue_files : directory :=
  {| text_files := ∅;
     csv_files :=
       <["Eigenvalues.csv" :=
           [["Element"; "Eigenvalue"]; ["H"; "-13.6"]; ["He"; "-24.6"]]]>
       (<["Eigenvalues_s.csv" :=
           [["Element"; "s_eigenvalue"]; ["H"; "-6.5"]; ["He"; "-15.5"]]]>
        ∅) |}.

(** An oxidation-state file whose second line carries a field that is not
    an integer. *)
Definition broken_oxidation_states : directory :=
  {| text_files :=
       <["oxidation_states.txt" := ["# symbol states"; "Fe 2 3"; "H x"]]> ∅;
     csv_files := ∅ |}.

(** The line each lookup prints for a symbol it does not find, when
    warnings are on. *)
Definition not_found_warning (g : global_var) (symbol : string) : string :=
  match g with
  | _ElementOxidationStates =>
      "WARNING: Oxidation states for element " +:+ symbol +:+ " not found."
  | _ElementCrustalAbundances =>
      "WARNING: Crustal-abundance data for element " +:+ symbol
      +:+ " not found."
  | _ElementHHIs =>
      "WARNING: HHI data for element " +:+ symbol +:+ " not found."
  | _ElementOpenBabelDerivedData =>
      "WARNING: Open Babel-derived element data for " +:+ symbol
      +:+ " not found."
  | _ElementEigenvalues =>
      "WARNING: Eigenvalue data for element " +:+ symbol +:+ " not found."
  | _ElementSEigenvalues =>
      "WARNING: s-eigenvalue data for element " +:+ symbol +:+ " not found."
  | _ElementShannonRadiiData =>
      "WARNING: Shannon-radius data for element " +:+ symbol
      +:+ " not found."
  | _ElementSSEData =>
      "WARNING: Solid-state energy data for element " +:+ symbol
      +:+ " not found."
  | _ElementSSE2015Data =>
      "WARNING: Solid-state energy (revised 2015) data for element "
      +:+ symbol +:+ " not found."
  | _ElementSSEPaulingData =>
      "WARNING: Solid-state energy data from Pauling electronegativity regression fit for element "
      +:+ symbol +:+ " not found."
  end.

(** [silent m]: [m] prints nothing. *)
Definition silent {A} (m : M A) : Prop :=
  forall s, stdout (m s).2 = stdout s.

(** An Open Babel table with one element whose covalent radius,
    electronegativity, ionisation potential and electron affinity all
    carry the default values. *)
Definition element_files : directory :=
  {| text_files :=
       <["element.txt" :=
           ["# Num Symb ARENeg RCov RBO RVdW MaxBnd Mass ElNeg. Ionization ElAffinity Red Green Blue Name";
            "8 O 3.50 0.73 0.62 1.52 2 15.9994 3.44 13.6181 1.461 1.00 0.05 0.05 Oxygen";
            "118 Xx 0.00 1.6 0.00 2.00 6 294 0.0 0.0 0.0 0.93 0.93 0.93 Ununoctium"]]> ∅;
     csv_files := ∅ |}.

(** ** What a caller sees of a returned container *)

(** An element of a list: a plain value, or the fields of the dictionary
    it refers to. *)
Inductive item :=
| IVal (v : value)
| IDict (d : gmap string value).

(** A container by value: the elements of a list, or the fields of a
    dictionary. *)
Inductive container :=
| CList (items : list item)
| CDict (d : gmap string value).

Definition view_item (h : list object) (v : value) : option item :=
  match v with
  | VRef l =>
      match h !! l with
      | Some (ODict d) => Some (IDict d)
      | _ => None
      end
  | _ => Some (IVal v)
  end.

(** [view h v]: the contents of the container [v] refers to in heap [h];
    two containers are equal in value when their views are. *)
Definition view (h : list object) (v : value) : option container :=
  match v with
  | VRef l =>
      match h !! l with
      | Some (OList xs) => CList <$> mapM (view_item h) xs
      | Some (ODict d) => Some (CDict d)
      | None => None
      end
  | _ => None
  end.

Definition ref_of (v : value) : option loc :=
  match v with
  | VRef l => Some l
  | _ => None
  end.

(** The objects a container is made of: the container itself and, for a
    list, the objects its elements refer to. *)
Definition owned (h : list object) (v : value) : list loc :=
  match v with
  | VRef l =>
      l :: match h !! l with
           | Some (OList xs) => omap ref_of xs
           | _ => []
           end
  | _ => []
  end.

(** The four lookups that take a [copy] argument. *)
Definition takes_copy (g : global_var) : bool :=
  match g with
  | _ElementOxidationStates | _ElementOpenBabelDerivedData
  | _ElementShannonRadiiData | _ElementSSE2015Data => true
  | _ => false
  end.

(** The shape of a cache entry of each of these datasets: a list of plain
    values, a dictionary, a list of dictionaries. *)
Definition well_shaped (g : global_var) (c : container) : Prop :=
  match g with
  | _ElementOxidationStates => exists vs, c = CList (IVal <$> vs)
  | _ElementOpenBabelDerivedData => exists d, c = CDict d
  | _ElementShannonRadiiData | _ElementSSE2015Data =>
      exists ds, c = CList (IDict <$> ds)
  | _ => False
  end.

(** Three of the CSV tables: Shannon radii (with its header row), the
    solid-state energies, and the revised solid-state energies, where
    titanium has one row for oxidation state 2 and a later one for 4. *)
Definition csv_samples : directory :=
  {| text_files := ∅;
     csv_files :=
       <["shannon_radii.csv" :=
           [["ion"; "charge"; "coordination"; "crystal_radius";
             "ionic_radius"; "comment"];
            ["Ti"; "2"; "6_n"; "1.0"; "0.86"; "E"];
            ["O"; "-2"; "2_n"; "1.21"; "1.35"; ""];
            ["Ti"; "4"; "4_n"; "0.56"; "0.42"; "C"]]]>
       (<["SSE.csv" :=
            [["H"; "1"; "-7.18"; "13.6"; "0.75"; "7.18"; "0.0"];
             ["O"; "8"; "-9.77"; "13.62"; "1.46"; "7.54"; "2.23"]]]>
        (<["SSE_2015.csv" :=
             [["Ti"; "2"; "-3.7"];
              ["O"; "-2"; "-9.7"];
              ["Ti"; "4"; "-4.2"]]]>
         ∅)) |}.

(** ** The multi-record tables, row by row

    What the interface table says each row of [shannon_radii.csv] and
    [SSE_2015.csv] contributes: the key in column 0 and a record built
    from the other columns. *)

Section records.

Variable builtin_int : string -> option Z.
Variable builtin_float : string -> option PrimFloat.float.

Definition shannon_record (row : list string)
    : option (string * gmap string value) :=
  key ← row !! 0;
  charge ← row !! 1 ≫= builtin_int;
  coordination ← row !! 2;
  crystal_radius ← row !! 3 ≫= builtin_float;
  ionic_radius ← row !! 4 ≫= builtin_float;
  comment ← row !! 5;
  Some (key,
        list_to_map
          [("charge", VInt charge);
           ("coordination", VStr coordination);
           ("crystal_radius", VFloat crystal_radius);
           ("ionic_radius", VFloat ionic_radius);
           ("comment", VStr comment)]).

Definition sse2015_record (row : list string)
    : option (string * gmap string value) :=
  key ← row !! 0;
  state ← row !! 1 ≫= builtin_int;
  sse ← row !! 2 ≫= builtin_float;
  Some (key,
        list_to_map
          [("OxidationState", VInt state);
           ("SolidStateEnergy2015", VFloat sse)]).

End records.

(** The records of the rows whose key is [symbol], in file order. *)
Definition records_of (symbol : string)
    (recs : list (string * gmap string value)) : list (gmap string value) :=
  (filter (fun kr => kr.1 = symbol) recs).*2.

(** [models g s recs]: the cache [g] holds exactly the keys of [recs], each
    bound to a list object of its own whose elements are dictionaries with
    the fields of that key's records, in order. *)
Definition models (g : global_var) (s : state)
    (recs : list (string * gmap string value)) : Prop :=
  exists m,
    globals s g = Some m /\
    (forall k,
       match m !! k with
       | Some v =>
           records_of k recs <> [] /\
           view (heap s) v = Some (CList (IDict <$> records_of k recs))
       | None => records_of k recs = []
       end) /\
    (forall k k' v, m !! k = Some v -> m !! k' = Some v -> k = k').

(** The two multi-record tables: the record of a row, and the rows that
    carry data ([shannon_radii.csv] starts with a header row). *)
Definition multi_record (g : global_var) : bool :=
  match g with
  | _ElementShannonRadiiData | _ElementSSE2015Data => true
  | _ => false
  end.

Definition record_of (builtin_int : string -> option Z)
    (builtin_float : string -> option PrimFloat.float)
    (g : global_var) (row : list string)
    : option (string * gmap string value) :=
  match g with
  | _ElementShannonRadiiData => shannon_record builtin_int builtin_float row
  | _ElementSSE2015Data => sse2015_record builtin_int builtin_float row
  | _ => None
  end.

Definition data_rows (g : global_var) (rows : list (list string))
    : option (list (list string)) :=
  match g with
  | _ElementShannonRadiiData =>
      match rows with
      | [] => None
      | _ :: rest => Some rest
      end
  | _ => Some rows
  end.

(** ** The Open Babel table, line by line *)

Definition covalent_radius_warning (key : string) : string :=
  "WARNING: Covalent radius for element " +:+ key +:+
  " may be set to the default value of 1.6 in the Open Babel-derived data.".

Definition electronegativity_warning (key : string) : string :=
  "WARNING: Pauling electronegativity for " +:+ key +:+
  " may be set to the default of zero in the Open Babel-derived data.".

Definition ionisation_warning (key : string) : string :=
  "WARNING: Ionisation potential for " +:+ key +:+
  " may be set to the default of zero in the Open Babel-derived data.".

Definition electron_affinity_warning (key : string) : string :=
  "WARNING: Electron affinity for " +:+ key +:+
  " may be set to the default of zero in the Open Babel-derived data.".

(** The dictionary obtained by assigning the fields one after the other. *)
Definition dict_of_fields (fields : list (string * value))
    : gmap string value :=
  foldl (fun d kv => <[kv.1 := kv.2]> d) ∅ fields.

Section element_table.

Variable builtin_int : string -> option Z.
Variable builtin_float : string -> option PrimFloat.float.

(** What a data line contributes: its key (the second token), the record
    of the interface table, and the warnings its default values call
    for. *)
Definition element_entry (items : list string)
    : option (string * gmap string value * list string) :=
  key ← items !! 1;
  number ← items !! 0 ≫= builtin_int;
  areNeg ← items !! 2 ≫= builtin_float;
  rCov ← items !! 3 ≫= builtin_float;
  rBO ← items !! 4 ≫= builtin_float;
  rVdW ← items !! 5 ≫= builtin_float;
  maxBnd ← items !! 6 ≫= builtin_int;
  mass ← items !! 7 ≫= builtin_float;
  elNeg ← items !! 8 ≫= builtin_float;
  ionization ← items !! 9 ≫= builtin_float;
  elAffinity ← items !! 10 ≫= builtin_float;
  red ← items !! 11 ≫= builtin_float;
  green ← items !! 12 ≫= builtin_float;
  blue ← items !! 13 ≫= builtin_float;
  name ← items !! 14;
  Some (key,
        dict_of_fields
          [("Number", VInt number);
           ("ARENeg", VFloat areNeg);
           ("RCov", VFloat rCov);
           ("RBO", VFloat rBO);
           ("RVdW", VFloat rVdW);
           ("MaxBnd", VInt maxBnd);
           ("Mass", VFloat mass);
           ("ElNeg.", VFloat elNeg);
           ("Ionization", VFloat ionization);
           ("ElAffinity", VFloat elAffinity);
           ("RGB", VTuple [red; green; blue]);
           ("Name", VStr name)],
        (if PrimFloat.eqb rCov 1.6 then [covalent_radius_warning key] else [])
        ++ (if PrimFloat.eqb elNeg 0.0
            then [electronegativity_warning key] else [])
        ++ (if PrimFloat.eqb ionization 0.0
            then [ionisation_warning key] else [])
        ++ (if PrimFloat.eqb elAffinity 0.0
            then [electron_affinity_warning key] else [])).

(** A line of the table: a comment ([Some None]), a data line
    ([Some (Some entry)]), or a line the loader fails on ([None]). *)
Definition element_line (line : string)
    : option (option (string * gmap string value * list string)) :=
  c ← String.get 0 (strip line);
  if negb (Ascii.eqb c "#"%char)
  then Some <$> element_entry (split (strip line))
  else Some None.

End element_table.

(** The effect of a line on the state: a data line adds its record as a
    new dictionary, binds the key to it, and prints its warnings if
    warnings are on. *)
Definition store_element
    (e : option (string * gmap string value * list string)) (s : state)
    : state :=
  match e with
  | None => s
  | Some (key, d, warnings) =>
      {| _PrintWarnings := _PrintWarnings s;
         globals :=
           upd _ElementOpenBabelDerivedData
             (Some (<[key := VRef (length (heap s))]>
                      (default ∅ (globals s _ElementOpenBabelDerivedData))))
             (globals s);
         heap := heap s ++ [ODict d];
         stdout := stdout s ++ (if _PrintWarnings s then warnings else []);
         opened := opened s;
         data_directory := data_directory s |}
  end.

(** The four fields with a default value the loader warns about: the
    field, its column, the default, and the warning. *)
Definition sentinel_fields
    : list (string * nat * PrimFloat.float * (string -> string)) :=
  [("RCov", 3, 1.6%float, covalent_radius_warning);
   ("ElNeg.", 8, 0.0%float, electronegativity_warning);
   ("Ionization", 9, 0.0%float, ionisation_warning);
   ("ElAffinity", 10, 0.0%float, electron_affinity_warning)].

(** ** The tables, row by row

    What each loader does with one row of its file, read off its loop
    body: the key, what is stored under it, and the warnings printed for
    it when warnings are on. *)

(** A row stores either a value kept in the cache itself or a new
    object the cache refers to. *)
Inductive stored :=
| Plain (v : value)
| Fresh (o : object).

Section rows.

Variable builtin_int : string -> option Z.
Variable builtin_float : string -> option PrimFloat.float.

(** A line of a text table: [None] when the loop body raises on it,
    [Some None] for a comment, [Some (Some e)] for a data line. *)
Definition text_row
    (entry_of : list string -> option (string * stored * list string))
    (line : string) : option (option (string * stored * list string)) :=
  c ← String.get 0 (strip line);
  if negb (Ascii.eqb c "#"%char)
  then Some <$> entry_of (split (strip line))
  else Some None.

(** A row of a CSV table: [None] when the loop body raises on it. *)
Definition csv_row
    (entry_of : list string -> option (string * stored * list string))
    (row : list string) : option (option (string * stored * list string)) :=
  Some <$> entry_of row.

Definition oxidation_states_entry (items : list string)
    : option (string * stored * list string) :=
  states ← mapM builtin_int (drop 1 items);
  key ← items !! 0;
  Some (key, Fresh (OList (VInt <$> states)), []).

Definition crustal_abundance_entry (items : list string)
    : option (string * stored * list string) :=
  abundance ← items !! 1 ≫= builtin_float;
  key ← items !! 0;
  Some (key, Plain (VFloat abundance), []).

Definition hhi_entry (items : list string)
    : option (string * stored * list string) :=
  hhi_p ← items !! 1 ≫= builtin_float;
  hhi_r ← items !! 2 ≫= builtin_float;
  key ← items !! 0;
  Some (key, Plain (VTuple [hhi_p; hhi_r]), []).

Definition open_babel_entry (items : list string)
    : option (string * stored * list string) :=
  (fun '(key, d, warnings) => (key, Fresh (ODict d), warnings))
    <$> element_entry builtin_int builtin_float items.

Definition eigenvalue_entry (row : list string)
    : option (string * stored * list string) :=
  eigenvalue ← row !! 1 ≫= builtin_float;
  key ← row !! 0;
  Some (key, Plain (VFloat eigenvalue), []).

Definition shannon_entry (row : list string)
    : option (string * stored * list string) :=
  (fun '(key, d) => (key, Fresh (ODict d), []))
    <$> shannon_record builtin_int builtin_float row.

Definition sse_entry (row : list string)
    : option (string * stored * list string) :=
  number ← row !! 1 ≫= builtin_int;
  sse ← row !! 2 ≫= builtin_float;
  ip ← row !! 3 ≫= builtin_float;
  ea ← row !! 4 ≫= builtin_float;
  mulliken ← row !! 5 ≫= builtin_float;
  renorm ← row !! 6 ≫= builtin_float;
  key ← row !! 0;
  Some (key,
        Fresh (ODict (list_to_map
          [("AtomicNumber", VInt number);
           ("SolidStateEnergy", VFloat sse);
           ("IonisationPotential", VFloat ip);
           ("ElectronAffinity", VFloat ea);
           ("MullikenElectronegativity", VFloat mulliken);
           ("SolidStateRenormalisationEnergy", VFloat renorm)])),
        []).

Definition sse2015_entry (row : list string)
    : option (string * stored * list string) :=
  (fun '(key, d) => (key, Fresh (ODict d), []))
    <$> sse2015_record builtin_int builtin_float row.

Definition sse_pauling_entry (row : list string)
    : option (string * stored * list string) :=
  sse ← row !! 1 ≫= builtin_float;
  key ← row !! 0;
  Some (key,
        Fresh (ODict (list_to_map [("SolidStateEnergyPauling", VFloat sse)])),
        []).

(** The rows a loader goes through, each with what the loop body does on
    it.  [None] when the file is missing, when a table that starts with a
    header row has no row at all, and for the s-eigenvalue table, whose
    loop does not store into its own cache. *)
Definition text_rows
    (entry_of : list string -> option (string * stored * list string))
    (file : option (list string))
    : option (list (option (option (string * stored * list string)))) :=
  match file with
  | Some lines => Some (text_row entry_of <$> lines)
  | None => None
  end.

Definition csv_rows (header : bool)
    (entry_of : list string -> option (string * stored * list string))
    (file : option (list (list string)))
    : option (list (option (option (string * stored * list string)))) :=
  match file, header with
  | Some rows, false => Some (csv_row entry_of <$> rows)
  | Some (_ :: rest), true => Some (csv_row entry_of <$> rest)
  | _, _ => None
  end.

Definition parsed_rows (g : global_var) (dir : directory)
    : option (list (option (option (string * stored * list string)))) :=
  match g with
  | _ElementOxidationStates =>
      text_rows oxidation_states_entry
        (text_files dir !! "oxidation_states.txt")
  | _ElementCrustalAbundances =>
      text_rows crustal_abundance_entry
        (text_files dir !! "crustal_abundance.txt")
  | _ElementHHIs => text_rows hhi_entry (text_files dir !! "HHIs.txt")
  | _ElementOpenBabelDerivedData =>
      text_rows open_babel_entry (text_files dir !! "element.txt")
  | _ElementEigenvalues =>
      csv_rows true eigenvalue_entry (csv_files dir !! "Eigenvalues.csv")
  | _ElementSEigenvalues => None
  | _ElementShannonRadiiData =>
      csv_rows true shannon_entry (csv_files dir !! "shannon_radii.csv")
  | _ElementSSEData => csv_rows false sse_entry (csv_files dir !! "SSE.csv")
  | _ElementSSE2015Data =>
      csv_rows false sse2015_entry (csv_files dir !! "SSE_2015.csv")
  | _ElementSSEPaulingData =>
      csv_rows false sse_pauling_entry (csv_files dir !! "SSE_Pauling.csv")
  end.

End rows.

(** The backing file of [g] is not in the directory. *)
Definition file_missing (g : global_var) (dir : directory) : Prop :=
  match g with
  | _ElementOxidationStates | _ElementCrustalAbundances
  | _ElementHHIs | _ElementOpenBabelDerivedData =>
      text_files dir !! backing_file g = None
  | _ => csv_files dir !! backing_file g = None
  end.

(** ** What a lookup answers *)

Inductive answer :=
| ANone
| AValue (v : value)
| AContainer (c : container).

(** What the caller sees of a returned value: [None], a plain value, or
    the contents of the container it refers to. *)
Definition seen (h : list object) (v : value) : option answer :=
  match v with
  | VNone => Some ANone
  | VRef _ => AContainer <$> view h v
  | _ => Some (AValue v)
  end.

(** What was stored for [symbol] by the rows [es], in row order. *)
Definition stored_for (symbol : string)
    (es : list (string * stored * list string)) : list stored :=
  (filter (fun e => e.1.1 = symbol) es).*1.*2.

Definition answer_of_stored (st : stored) : answer :=
  match st with
  | Plain v => AValue v
  | Fresh (OList xs) => AContainer (CList (IVal <$> xs))
  | Fresh (ODict d) => AContainer (CDict d)
  end.

Definition dict_of_stored (st : stored) : option (gmap string value) :=
  match st with
  | Fresh (ODict d) => Some d
  | _ => None
  end.

(** The answer the rows [es] determine for [symbol]: in the two
    multi-record tables the list of all its records in row order, in the
    others what its last row stored; [None] when no row has the key. *)
Definition expected (g : global_var) (symbol : string)
    (es : list (string * stored * list string)) : answer :=
  if multi_record g then
    match omap dict_of_stored (stored_for symbol es) with
    | [] => ANone
    | ds => AContainer (CList (IDict <$> ds))
    end
  else
    match last (stored_for symbol es) with
    | None => ANone
    | Some st => answer_of_stored st
    end.

(** The warnings of all rows, in row order. *)
Definition warnings_of (es : list (string * stored * list string))
    : list string :=
  es ≫= (fun e => e.2).

(** What a value in a cache may be when it is not a reference. *)
Definition plain (v : value) : Prop :=
  match v with
  | VNone | VRef _ => False
  | _ => True
  end.

(** What each loader stores: plain values in the three scalar tables, a
    list of plain values for the oxidation states, a dictionary in the
    others. *)
Definition shape_ok (g : global_var) (st : stored) : Prop :=
  match g with
  | _ElementCrustalAbundances | _ElementHHIs | _ElementEigenvalues =>
      exists v, st = Plain v /\ plain v
  | _ElementOxidationStates =>
      exists vs, st = Fresh (OList vs) /\ Forall plain vs
  | _ElementSEigenvalues => False
  | _ => exists d, st = Fresh (ODict d)
  end.

(** [holds g s es]: the cache [g] is a dictionary with exactly the keys of
    [es], each bound to what [es] determines for it. *)
Definition holds (g : global_var) (s : state)
    (es : list (string * stored * list string)) : Prop :=
  exists m,
    globals s g = Some m /\
    forall k,
      match expected g k es with
      | ANone => m !! k = None
      | AValue v => m !! k = Some v /\ plain v /\ takes_copy g = false
      | AContainer c =>
          exists v,
            m !! k = Some v /\ view (heap s) v = Some c /\
            (takes_copy g = true -> well_shaped g c)
      end.

(** The effect of a row of a single-record table on the state. *)
Definition store_entry (g : global_var)
    (e : option (string * stored * list string)) (s : state) : state :=
  match e with
  | None => s
  | Some (key, st, warnings) =>
      {| _PrintWarnings := _PrintWarnings s;
         globals :=
           upd g
             (Some (<[key := match st with
                             | Plain v => v
                             | Fresh _ => VRef (length (heap s))
                             end]>
                      (default ∅ (globals s g))))
             (globals s);
         heap := match st with
                 | Plain _ => heap s
                 | Fresh o => heap s ++ [o]
                 end;
         stdout := stdout s ++ (if _PrintWarnings s then warnings else []);
         opened := opened s;
         data_directory := data_directory s |}
  end.

(** [unwinds s s']: what a row on which the loop body raises may leave
    behind: new objects and output, nothing else. *)
Record unwinds (s s' : state) : Prop := {
  unwinds_warnings : _PrintWarnings s' = _PrintWarnings s;
  unwinds_globals : globals s' = globals s;
  unwinds_heap : heap s `prefix_of` heap s';
  unwinds_opened : opened s' = opened s;
  unwinds_directory : data_directory s' = data_directory s;
}.

Section answers.

Variable builtin_int : string -> option Z.
Variable builtin_float : string -> option PrimFloat.float.

(** [answers g s es]: in state [s] every lookup in [g] returns what the
    rows [es] determine for its symbol, opens no file, leaves the cache
    variables as they are, and prints the not-found warning, and only
    that, when the symbol has no row and warnings are on. *)
Definition answers (g : global_var) (s : state)
    (es : list (string * stored * list string)) : Prop :=
  forall symbol copy,
    exists v s',
      lookup builtin_int builtin_float g symbol copy s = (Ok v, s') /\
      seen (heap s') v = Some (expected g symbol es) /\
      opened s' = opened s /\
      globals s' = globals s /\
      stdout s' =
      stdout s ++
      (if _PrintWarnings s then
         match expected g symbol es with
         | ANone => [not_found_warning g symbol]
         | _ => []
         end
       else []).

End answers.

(** The records of the rows of a multi-record table, with their keys. *)
Definition records (es : list (string * stored * list string))
    : list (string * gmap string value) :=
  omap (fun e => d ← dict_of_stored e.1.2; Some (e.1.1, d)) es.

(** The invariant of a load after the rows [es]: every row stored what
    its table stores, and the cache holds the rows. *)
Definition loaded_rows (g : global_var) (s : state)
    (es : list (string * stored * list string)) : Prop :=
  Forall (fun e => shape_ok g e.1.2) es /\
  if multi_record g then models g s (records es) else holds g s es.

(** [rows_effect es s s']: rows that stored [es] changed neither the
    switch, the log of opened files nor the directory, and printed their
    warnings, and nothing else, if warnings are on. *)
Record rows_effect (es : list (string * stored * list string))
    (s s' : state) : Prop := {
  rows_warnings : _PrintWarnings s' = _PrintWarnings s;
  rows_opened : opened s' = opened s;
  rows_directory : data_directory s' = data_directory s;
  rows_stdout :
    stdout s' =
    stdout s ++ (if _PrintWarnings s then warnings_of es else []);
}.

(** The state in which a loader starts its loop: the cache variable is
    bound to an empty dictionary and the file has been opened. *)
Definition loading (g : global_var) (s : state) : state :=
  set_opened (opened s ++ [backing_file g])
    (set_globals (upd g (Some ∅) (globals s)) s).

(** [rows_succeed g body spec]: on a row for which [spec] gives an outcome
    the loop body returns and keeps the invariant of the load. *)
Definition rows_succeed {R} (g : global_var) (body : R -> M unit)
    (spec : R -> option (option (string * stored * list string))) : Prop :=
  forall row eo s es,
    spec row = Some eo -> loaded_rows g s es ->
    exists s',
      body row s = (Ok tt, s') /\
      loaded_rows g s' (es ++ option_list eo) /\
      rows_effect (option_list eo) s s'.

(** [rows_raise g body spec]: on a row for which [spec] gives none the
    loop body raises [IndexError] or [ValueError] and unwinds. *)
Definition rows_raise {R} (g : global_var) (body : R -> M unit)
    (spec : R -> option (option (string * stored * list string))) : Prop :=
  forall row s,
    spec row = None -> is_Some (globals s g) ->
    exists e s',
      body row s = (Raise e, s') /\
      (e = IndexError \/ e = ValueError) /\ unwinds s s'.

Section loaders.

Variable builtin_int : string -> option Z.
Variable builtin_float : string -> option PrimFloat.float.

(** [loads_by g symbol copy s rows body spec]: started in [s], where the
    cache is not loaded, the lookup runs [body] over [rows] and then
    answers as a lookup in the loaded cache does; [spec] tells what
    [body] does on each row. *)
Definition loads_by {R} (g : global_var) (symbol : string) (copy : bool)
    (s : state) (rows : list R) (body : R -> M unit)
    (spec : R -> option (option (string * stored * list string))) : Prop :=
  (exists tail,
     lookup builtin_int builtin_float g symbol copy s =
     bind (for_each rows body) (fun _ => tail) (loading g s) /\
     forall s',
       is_Some (globals s' g) ->
       lookup builtin_int builtin_float g symbol copy s' = tail s') /\
  rows_succeed g body spec /\
  rows_raise g body spec.

End loaders.

(** * Properties *)

Lemma frame_refl s : frame s s.
Proof. by split. Qed.

Lemma frame_trans s1 s2 s3 : frame s1 s2 -> frame s2 s3 -> frame s1 s3.
Proof.
  intros [Ho Hd Hw Hg Hh Hs] [Ho' Hd' Hw' Hg' Hh' Hs']; split.
  - congruence.
  - congruence.
  - congruence.
  - eauto.
  - lia.
  - intros E. rewrite Hs' by congruence. auto.
Qed.

Lemma reads_refl s : reads s s.
Proof. split; [apply frame_refl|done|done]. Qed.

Lemma reads_trans s1 s2 s3 : reads s1 s2 -> reads s2 s3 -> reads s1 s3.
Proof.
  intros [] []; split.
  - by eapply frame_trans.
  - congruence.
  - by etrans.
Qed.

(** ** Frame rules for the monad and its primitives *)

Lemma bind_run {A B} (m : M A) (f : A -> M B) s :
  bind m f s =
  match m s with
  | (Ok a, s') => f a s'
  | (Raise e, s') => (Raise e, s')
  end.
Proof. reflexivity. Qed.

Lemma framed_ret {A} (a : A) : framed (ret a).
Proof. intros s. apply frame_refl. Qed.

Lemma framed_raise {A} e : framed (@raise A e).
Proof. intros s. apply frame_refl. Qed.

Lemma framed_bind {A B} (m : M A) (f : A -> M B) :
  framed m -> (forall a, framed (f a)) -> framed (bind m f).
Proof.
  intros Hm Hf s. rewrite bind_run. specialize (Hm s).
  destruct (m s) as [[a|e] s']; simpl in *; [|done].
  eapply frame_trans; [done|apply Hf].
Qed.

Lemma framed_for_each {A} (xs : list A) body :
  (forall x, framed (body x)) -> framed (for_each xs body).
Proof.
  intros Hb. induction xs as [|x xs IH]; simpl.
  - apply framed_ret.
  - apply framed_bind; auto.
Qed.

Lemma framed_map_m {A B} (f : A -> M B) xs :
  (forall x, framed (f x)) -> framed (map_m f xs).
Proof.
  intros Hf. induction xs as [|x xs IH]; simpl.
  - apply framed_ret.
  - apply framed_bind; [done|]. intros y.
    apply framed_bind; [done|]. intros ys. apply framed_ret.
Qed.

Lemma framed_lift {A} e (o : option A) : framed (lift e o).
Proof. destruct o; [apply framed_ret|apply framed_raise]. Qed.

Lemma framed_index {A} (xs : list A) i : framed (index xs i).
Proof. apply framed_lift. Qed.

Lemma framed_str_index x i : framed (str_index x i).
Proof. apply framed_lift. Qed.

Lemma framed_next reader : framed (next reader).
Proof. destruct reader; [apply framed_raise|apply framed_ret]. Qed.

Lemma framed_get_global g : framed (get_global g).
Proof. intros s. apply frame_refl. Qed.

Lemma framed_get_PrintWarnings : framed get_PrintWarnings.
Proof. intros s. apply frame_refl. Qed.

Lemma framed_contains g k : framed (contains g k).
Proof. intros s. unfold contains. destruct (globals s g); apply frame_refl. Qed.

Lemma framed_getitem g k : framed (getitem g k).
Proof.
  intros s. unfold getitem.
  destruct (globals s g) as [m|]; [destruct (m !! k)|]; apply frame_refl.
Qed.

Lemma framed_assign_empty_dict g : framed (assign_empty_dict g).
Proof.
  intros s. split; simpl; try done.
  intros g' Hg'. unfold upd. by case_decide.
Qed.

Lemma framed_setitem g k v : framed (setitem g k v).
Proof.
  intros s. unfold setitem. destruct (globals s g) as [m|] eqn:E;
    [|apply frame_refl].
  split; simpl; try done.
  intros g' Hg'. unfold upd. by case_decide.
Qed.

Lemma framed_alloc o : framed (alloc o).
Proof. intros s. split; simpl; try done. rewrite length_app. lia. Qed.

Lemma framed_deref v : framed (deref v).
Proof.
  intros s. unfold deref.
  destruct v; try apply frame_refl. destruct (heap s !! l); apply frame_refl.
Qed.

Lemma framed_list_items v : framed (list_items v).
Proof.
  apply framed_bind; [apply framed_deref|].
  intros []; [apply framed_ret|apply framed_raise].
Qed.

Lemma framed_dict_copy v : framed (dict_copy v).
Proof.
  apply framed_bind; [apply framed_deref|].
  intros []; [apply framed_raise|apply framed_alloc].
Qed.

Lemma framed_dict_set v k x : framed (dict_set v k x).
Proof.
  apply framed_bind; [apply framed_deref|].
  intros []; destruct v; try apply framed_raise.
  intros s. split; simpl; try done. by rewrite length_insert.
Qed.

Lemma framed_list_append v x : framed (list_append v x).
Proof.
  apply framed_bind; [apply framed_deref|].
  intros []; destruct v; try apply framed_raise.
  intros s. split; simpl; try done. by rewrite length_insert.
Qed.

Lemma framed_warn_if c msg : framed (warn_if c msg).
Proof.
  intros s. unfold warn_if, bind, get_PrintWarnings.
  destruct (_PrintWarnings s) eqn:E; simpl; [|apply frame_refl].
  destruct c; simpl; [|apply frame_refl].
  split; simpl; try done. congruence.
Qed.

Lemma framed_not_found msg : framed (not_found msg).
Proof.
  intros s. unfold not_found, bind, get_PrintWarnings.
  destruct (_PrintWarnings s) eqn:E; simpl; [|apply frame_refl].
  split; simpl; try done. congruence.
Qed.

Lemma reading_ret {A} (a : A) : reading (ret a).
Proof. intros s. apply reads_refl. Qed.

Lemma reading_raise {A} e : reading (@raise A e).
Proof. intros s. apply reads_refl. Qed.

Lemma reading_bind {A B} (m : M A) (f : A -> M B) :
  reading m -> (forall a, reading (f a)) -> reading (bind m f).
Proof.
  intros Hm Hf s. rewrite bind_run. specialize (Hm s).
  destruct (m s) as [[a|e] s']; simpl in *; [|done].
  eapply reads_trans; [done|apply Hf].
Qed.

Lemma reading_map_m {A B} (f : A -> M B) xs :
  (forall x, reading (f x)) -> reading (map_m f xs).
Proof.
  intros Hf. induction xs as [|x xs IH]; simpl.
  - apply reading_ret.
  - apply reading_bind; [done|]. intros y.
    apply reading_bind; [done|]. intros ys. apply reading_ret.
Qed.

Lemma reading_contains g k : reading (contains g k).
Proof. intros s. unfold contains. destruct (globals s g); apply reads_refl. Qed.

Lemma reading_getitem g k : reading (getitem g k).
Proof.
  intros s. unfold getitem.
  destruct (globals s g) as [m|]; [destruct (m !! k)|]; apply reads_refl.
Qed.

Lemma reading_alloc o : reading (alloc o).
Proof.
  intros s. split; [apply framed_alloc|done|]. simpl. by apply prefix_app_r.
Qed.

Lemma reading_deref v : reading (deref v).
Proof.
  intros s. unfold deref.
  destruct v; try apply reads_refl. destruct (heap s !! l); apply reads_refl.
Qed.

Lemma reading_list_items v : reading (list_items v).
Proof.
  apply reading_bind; [apply reading_deref|].
  intros []; [apply reading_ret|apply reading_raise].
Qed.

Lemma reading_dict_copy v : reading (dict_copy v).
Proof.
  apply reading_bind; [apply reading_deref|].
  intros []; [apply reading_raise|apply reading_alloc].
Qed.

Lemma reading_not_found msg : reading (not_found msg).
Proof.
  intros s. split; [apply framed_not_found| |].
  - unfold not_found, bind, get_PrintWarnings. simpl.
    by destruct (_PrintWarnings s).
  - unfold not_found, bind, get_PrintWarnings. simpl.
    by destruct (_PrintWarnings s).
Qed.

Lemma opens_bind {A B} name g (m : M A) (f : A -> M B) :
  opens name g m -> (forall a, framed (f a)) -> opens name g (bind m f).
Proof.
  intros Hm Hf s. rewrite bind_run. destruct (Hm s) as [H1 H2].
  destruct (m s) as [[a|e] s']; simpl in *; [|done].
  specialize (Hf a s'). split.
  - by eapply frame_trans.
  - by apply Hf.
Qed.

Lemma opens_text {A} g name (k : list string -> M A) :
  (forall file, framed (k file)) ->
  opens name g (assign_empty_dict g ;; let* file := open_text name in k file).
Proof.
  intros Hk s. unfold bind at 1. simpl. unfold bind, open_text. simpl.
  set (s1 := set_opened (opened s ++ [name])
               (set_globals (upd g (Some ∅) (globals s)) s)).
  assert (Hf : frame (set_opened (opened s ++ [name]) s) s1).
  { split; simpl; try done. intros g' Hg'. unfold upd. by case_decide. }
  assert (Hg : is_Some (globals s1 g)).
  { simpl. unfold upd. by rewrite decide_True. }
  destruct (text_files (data_directory s) !! name) as [file|]; simpl; [|done].
  specialize (Hk file s1). split.
  - by eapply frame_trans.
  - by apply Hk.
Qed.

Lemma opens_csv {A} g name (k : list (list string) -> M A) :
  (forall reader, framed (k reader)) ->
  opens name g (assign_empty_dict g ;; let* reader := open_csv name in k reader).
Proof.
  intros Hk s. unfold bind at 1. simpl. unfold bind, open_csv. simpl.
  set (s1 := set_opened (opened s ++ [name])
               (set_globals (upd g (Some ∅) (globals s)) s)).
  assert (Hf : frame (set_opened (opened s ++ [name]) s) s1).
  { split; simpl; try done. intros g' Hg'. unfold upd. by case_decide. }
  assert (Hg : is_Some (globals s1 g)).
  { simpl. unfold upd. by rewrite decide_True. }
  destruct (csv_files (data_directory s) !! name) as [file|]; simpl; [|done].
  specialize (Hk file s1). split.
  - by eapply frame_trans.
  - by apply Hk.
Qed.

Section properties.

Variable builtin_int : string -> option Z.
Variable builtin_float : string -> option PrimFloat.float.

#[local] Abbreviation int := (int builtin_int).
#[local] Abbreviation float := (float builtin_float).
#[local] Abbreviation int_at := (int_at builtin_int).
#[local] Abbreviation float_at := (float_at builtin_float).
#[local] Abbreviation lookup := (lookup builtin_int builtin_float).

Lemma framed_int x : framed (int x).
Proof. apply framed_lift. Qed.

Lemma framed_float x : framed (float x).
Proof. apply framed_lift. Qed.

Lemma framed_int_at items i : framed (int_at items i).
Proof. apply framed_bind; [apply framed_index|apply framed_int]. Qed.

Lemma framed_float_at items i : framed (float_at items i).
Proof. apply framed_bind; [apply framed_index|apply framed_float]. Qed.

(** Decomposes a goal [framed m] along the structure of [m]. *)
Ltac framed :=
  repeat first
    [ progress intros
    | apply framed_for_each | apply framed_map_m
    | apply framed_ret | apply framed_raise
    | apply framed_int_at | apply framed_float_at
    | apply framed_int | apply framed_float
    | apply framed_index | apply framed_str_index | apply framed_next
    | apply framed_get_global | apply framed_get_PrintWarnings
    | apply framed_contains | apply framed_getitem
    | apply framed_setitem | apply framed_assign_empty_dict
    | apply framed_alloc | apply framed_list_items | apply framed_dict_copy
    | apply framed_dict_set | apply framed_list_append
    | apply framed_warn_if | apply framed_not_found
    | apply framed_bind
    | match goal with
      | |- framed (if ?b then _ else _) => destruct b
      | |- framed (match ?x with _ => _ end) => destruct x
      end ].

(** Decomposes a goal [reading m] along the structure of [m]. *)
Ltac reading :=
  repeat first
    [ progress intros
    | apply reading_map_m
    | apply reading_ret | apply reading_raise
    | apply reading_contains | apply reading_getitem
    | apply reading_alloc | apply reading_list_items
    | apply reading_dict_copy | apply reading_not_found
    | apply reading_bind
    | match goal with
      | |- reading (if ?b then _ else _) => destruct b
      | |- reading (match ?x with _ => _ end) => destruct x
      end ].

(** A lookup of a dataset whose variable is still [None] opens the backing
    file once and leaves the variable bound to a dictionary, also when the
    load raises. *)
Lemma lookup_unloaded g symbol copy s :
  globals s g = None ->
  frame (set_opened (opened s ++ [backing_file g]) s)
        (lookup g symbol copy s).2 /\
  is_Some (globals (lookup g symbol copy s).2 g).
Proof.
  intros Hg.
  destruct g; simpl;
    [ unfold LookupElementOxidationStates
    | unfold LookupElementCrustalAbundance
    | unfold LookupElementHHIs
    | unfold LookupElementOpenBabelDerivedData
    | unfold LookupElementEigenvalue
    | unfold LookupElementSEigenvalue
    | unfold LookupElementShannonRadiusData
    | unfold LookupElementSSEData
    | unfold LookupElementSSE2015Data
    | unfold LookupElementSSEPaulingData ];
    rewrite bind_run; simpl; rewrite Hg;
    apply opens_bind;
    first [ apply opens_text | apply opens_csv | idtac ]; framed.
Qed.

(** A lookup of a dataset whose variable is bound only reads: no file is
    opened, the variables and all existing objects stay as they are. *)
Lemma lookup_loaded g symbol copy s :
  is_Some (globals s g) ->
  reads s (lookup g symbol copy s).2.
Proof.
  intros [m Hg].
  destruct g; simpl;
    [ unfold LookupElementOxidationStates
    | unfold LookupElementCrustalAbundance
    | unfold LookupElementHHIs
    | unfold LookupElementOpenBabelDerivedData
    | unfold LookupElementEigenvalue
    | unfold LookupElementSEigenvalue
    | unfold LookupElementShannonRadiusData
    | unfold LookupElementSSEData
    | unfold LookupElementSSE2015Data
    | unfold LookupElementSSEPaulingData ];
    rewrite bind_run; simpl; rewrite Hg;
    rewrite bind_run; simpl;
    match goal with
    | |- reads _ (?c s).2 =>
        let H := fresh in assert (H : reading c) by reading; apply H
    end.
Qed.

(** ** Each backing file is read at most once *)

#[local] Abbreviation perform := (perform builtin_int builtin_float).
#[local] Abbreviation run := (run builtin_int builtin_float).

Lemma backing_file_inj g g' : backing_file g = backing_file g' -> g = g'.
Proof. by destruct g, g'. Qed.

Lemma times_opened_snoc name f s :
  times_opened name (set_opened (opened s ++ [f]) s) =
  times_opened name s + (if decide (f = name) then 1 else 0).
Proof.
  unfold times_opened. simpl. rewrite filter_app, length_app.
  f_equal. rewrite filter_cons, filter_nil. by case_decide.
Qed.

Lemma perform_globals_mono s c g :
  is_Some (globals s g) -> is_Some (globals (perform s c) g).
Proof.
  intros Hg. destruct c as [b|g' symbol copy]; simpl; [done|].
  destruct (globals s g') as [m|] eqn:E.
  - destruct (lookup_loaded g' symbol copy s) as [_ -> _]; eauto.
  - destruct (lookup_unloaded g' symbol copy s E) as [[_ _ _ H _ _] _].
    by apply H.
Qed.

Lemma run_globals_mono calls s g :
  is_Some (globals s g) -> is_Some (globals (run calls s) g).
Proof.
  revert s. induction calls as [|c calls IH]; intros s Hg; simpl; [done|].
  apply IH. by apply perform_globals_mono.
Qed.

(** The invariant of a run: a dataset whose variable is still [None] has
    never had its file opened, and no file was opened twice. *)
Lemma perform_opened_once s c :
  (forall g, (globals s g = None -> times_opened (backing_file g) s = 0) /\
             times_opened (backing_file g) s <= 1) ->
  forall g, (globals (perform s c) g = None ->
             times_opened (backing_file g) (perform s c) = 0) /\
            times_opened (backing_file g) (perform s c) <= 1.
Proof.
  intros Inv g. destruct c as [b|g' symbol copy]; simpl.
  { apply (Inv g). }
  destruct (globals s g') as [m|] eqn:E.
  - destruct (lookup_loaded g' symbol copy s) as [[Ho _ _ _ _ _] Hgl _];
      [eauto|].
    unfold times_opened. rewrite Ho, Hgl. apply (Inv g).
  - destruct (lookup_unloaded g' symbol copy s E)
      as [[Ho _ _ Hm _ _] Hsome].
    assert (Hcount : forall name,
      times_opened name (lookup g' symbol copy s).2 =
      times_opened name s + (if decide (backing_file g' = name) then 1 else 0)).
    { intros name. rewrite <- times_opened_snoc.
      unfold times_opened. by rewrite Ho. }
    rewrite Hcount. destruct (Inv g) as [Hnone Hle]. case_decide as Hf.
    + apply backing_file_inj in Hf as ->. split.
      * intros Hn. rewrite Hn in Hsome. by destruct Hsome.
      * rewrite Hnone by done. lia.
    + split; [|lia]. intros Hn. rewrite Hnone; [lia|].
      destruct (globals s g) eqn:Eg; [|done].
      destruct (Hm g) as [? Hx]; [simpl; eauto|]. congruence.
Qed.

Lemma run_opened_once calls s :
  (forall g, (globals s g = None -> times_opened (backing_file g) s = 0) /\
             times_opened (backing_file g) s <= 1) ->
  forall g, times_opened (backing_file g) (run calls s) <= 1.
Proof.
  revert s. induction calls as [|c calls IH]; intros s Inv g; simpl.
  - apply (Inv g).
  - apply IH. by apply perform_opened_once.
Qed.

(** C5.  In every run of a client from the start of the process, each
    dataset's backing file is opened at most once; and once a dataset has
    been looked up, whatever the outcome of that first call, every later
    lookup in it (for any symbol, with any copy flag) opens no file, finds
    the cache variable bound, and leaves all cache variables and all
    existing objects as they were. *)
Theorem backing_file_opened_at_most_once dir g :
  (forall calls,
     times_opened (backing_file g) (run calls (initial_state dir)) <= 1) /\
  (forall before symbol0 copy0 after symbol copy,
     let s := run (before ++ CallLookup g symbol0 copy0 :: after)
                  (initial_state dir) in
     let s' := (lookup g symbol copy s).2 in
     is_Some (globals s g) /\
     opened s' = opened s /\
     globals s' = globals s /\
     heap s `prefix_of` heap s').
Proof.
  split.
  - intros calls. apply run_opened_once. intros g'.
    unfold times_opened. simpl. split; [done|lia].
  - intros before symbol0 copy0 after symbol copy s s'.
    assert (Hloaded : is_Some (globals s g)).
    { subst s. unfold run. rewrite foldl_app. simpl.
      apply run_globals_mono.
      set (s0 := foldl _ _ before).
      destruct (globals s0 g) eqn:E.
      - destruct (lookup_loaded g symbol0 copy0 s0) as [_ -> _]; eauto.
      - by destruct (lookup_unloaded g symbol0 copy0 s0 E). }
    destruct (lookup_loaded g symbol copy s Hloaded) as [[Ho _ _ _ _ _] Hg Hh].
    done.
Qed.

(** ** A load that fails *)

(** C2, amended.  If the first lookup of a dataset raises, the cache
    variable has nevertheless been bound to a dictionary and the backing
    file has been opened once; every later lookup in that dataset opens no
    file and leaves the cache variables as the failed load left them. *)
Theorem failed_load_is_not_retried g symbol copy s e :
  globals s g = None ->
  (lookup g symbol copy s).1 = Raise e ->
  let s1 := (lookup g symbol copy s).2 in
  is_Some (globals s1 g) /\
  opened s1 = opened s ++ [backing_file g] /\
  forall symbol' copy',
    opened (lookup g symbol' copy' s1).2 = opened s1 /\
    globals (lookup g symbol' copy' s1).2 = globals s1.
Proof.
  intros Hnone _ s1.
  destruct (lookup_unloaded g symbol copy s Hnone) as [[Ho _ _ _ _ _] Hsome].
  split; [done|]. split; [done|].
  intros symbol' copy'.
  by destruct (lookup_loaded g symbol' copy' s1 Hsome) as [[Ho' _ _ _ _ _] Hg _].
Qed.

(** ** The s-eigenvalue loader *)

(** C10.  When neither eigenvalue dataset has been loaded and
    [Eigenvalues_s.csv] has a header and a first data row whose second
    column reads as a float, the lookup raises [TypeError]: the row is
    assigned into [_ElementEigenvalues], which is [None].  The loader's
    own variable is left bound to an empty dictionary. *)
Theorem s_eigenvalue_before_eigenvalue_raises symbol s header row rest cell x :
  globals s _ElementSEigenvalues = None ->
  globals s _ElementEigenvalues = None ->
  csv_files (data_directory s) !! "Eigenvalues_s.csv"
    = Some (header :: row :: rest) ->
  row !! 1 = Some cell ->
  builtin_float cell = Some x ->
  (LookupElementSEigenvalue builtin_float symbol s).1 = Raise TypeError /\
  globals (LookupElementSEigenvalue builtin_float symbol s).2
    _ElementSEigenvalues = Some ∅.
Proof.
  intros Hs He Hfile Hcell Hx.
  destruct row as [|key [|cell' row]]; simplify_eq/=.
  unfold LookupElementSEigenvalue, bind, get_global, assign_empty_dict,
    open_csv; simpl.
  rewrite Hs, Hfile. simpl.
  unfold bind, float_at, index, float, lift, bind; simpl.
  rewrite Hx. simpl. unfold setitem; simpl.
  assert (Hupd : upd _ElementSEigenvalues (Some ∅) (globals s)
                   _ElementEigenvalues = None).
  { unfold upd. by rewrite decide_False. }
  rewrite Hupd. simpl.
  split; [done|]. unfold upd. by rewrite decide_True.
Qed.

(** ** Lookups in a loaded dataset *)

Lemma silent_ret {A} (a : A) : silent (ret a).
Proof. done. Qed.

Lemma silent_raise {A} e : silent (@raise A e).
Proof. done. Qed.

Lemma silent_bind {A B} (m : M A) (f : A -> M B) :
  silent m -> (forall a, silent (f a)) -> silent (bind m f).
Proof.
  intros Hm Hf s. rewrite bind_run. specialize (Hm s).
  destruct (m s) as [[a|e] s']; simpl in *; [|done].
  by rewrite Hf.
Qed.

Lemma silent_map_m {A B} (f : A -> M B) xs :
  (forall x, silent (f x)) -> silent (map_m f xs).
Proof.
  intros Hf. induction xs as [|x xs IH]; simpl; [done|].
  apply silent_bind; [done|]. intros y.
  apply silent_bind; [done|]. by intros ys.
Qed.

Lemma silent_getitem g k : silent (getitem g k).
Proof.
  intros s. unfold getitem.
  by destruct (globals s g) as [m|]; [destruct (m !! k)|].
Qed.

Lemma silent_deref v : silent (deref v).
Proof.
  intros s. unfold deref. destruct v; try done. by destruct (heap s !! l).
Qed.

Lemma silent_list_items v : silent (list_items v).
Proof. apply silent_bind; [apply silent_deref|]. by intros []. Qed.

Lemma silent_dict_copy v : silent (dict_copy v).
Proof. apply silent_bind; [apply silent_deref|]. by intros []. Qed.

Lemma silent_alloc o : silent (alloc o).
Proof. done. Qed.

(** Decomposes a goal [silent m] along the structure of [m]. *)
Ltac silent :=
  repeat first
    [ progress intros
    | apply silent_map_m
    | apply silent_ret | apply silent_raise
    | apply silent_getitem | apply silent_alloc
    | apply silent_list_items | apply silent_dict_copy
    | apply silent_bind
    | match goal with
      | |- silent (if ?b then _ else _) => destruct b
      end ].

(** Unfolds the lookup function selected by [g] in the goal. *)
Ltac unfold_lookup :=
  unfold lookup,
    LookupElementOxidationStates, LookupElementCrustalAbundance,
    LookupElementHHIs, LookupElementOpenBabelDerivedData,
    LookupElementEigenvalue, LookupElementSEigenvalue,
    LookupElementShannonRadiusData, LookupElementSSEData,
    LookupElementSSE2015Data, LookupElementSSEPaulingData.

(** In a loaded dataset a symbol that is not a key yields [None]; the
    state is unchanged but for the warning line when warnings are on. *)
Lemma lookup_absent g symbol copy s m :
  globals s g = Some m ->
  m !! symbol = None ->
  lookup g symbol copy s =
  (Ok VNone,
   if _PrintWarnings s
   then set_stdout (stdout s ++ [not_found_warning g symbol]) s
   else s).
Proof.
  intros Hg Hm.
  destruct g; unfold_lookup; rewrite bind_run; simpl; rewrite Hg;
    rewrite bind_run; simpl; rewrite bind_run;
    unfold contains; rewrite Hg, Hm; simpl;
    unfold not_found, bind, get_PrintWarnings; simpl;
    by destruct (_PrintWarnings s).
Qed.

(** In a loaded dataset a symbol that is a key is returned by reference
    when no copy is asked for, and nothing at all changes. *)
Lemma lookup_by_reference g symbol s m v :
  globals s g = Some m ->
  m !! symbol = Some v ->
  lookup g symbol false s = (Ok v, s).
Proof.
  intros Hg Hm.
  destruct g; unfold_lookup; rewrite bind_run; simpl; rewrite Hg;
    rewrite bind_run; simpl; rewrite bind_run;
    unfold contains; rewrite Hg, Hm; simpl;
    unfold getitem; by rewrite Hg, Hm.
Qed.

(** In a loaded dataset the lookup of a key prints nothing. *)
Lemma lookup_present_silent g symbol copy s m :
  globals s g = Some m ->
  is_Some (m !! symbol) ->
  stdout (lookup g symbol copy s).2 = stdout s.
Proof.
  intros Hg [v Hm].
  destruct g; unfold_lookup; rewrite bind_run; simpl; rewrite Hg;
    rewrite bind_run; simpl; rewrite bind_run;
    unfold contains; rewrite Hg, Hm; simpl;
    match goal with
    | |- stdout (?c s).2 = _ =>
        let H := fresh in assert (H : silent c) by silent; apply H
    end.
Qed.

(** A first lookup that does not raise is the load followed by a lookup
    in the loaded dataset. *)
Lemma lookup_split g symbol copy s v s1 :
  globals s g = None ->
  lookup g symbol copy s = (Ok v, s1) ->
  exists s0,
    is_Some (globals s0 g) /\
    frame (set_opened (opened s ++ [backing_file g]) s) s0 /\
    lookup g symbol copy s0 = (Ok v, s1).
Proof.
  intros Hg.
  destruct g; unfold_lookup; rewrite bind_run; simpl; rewrite Hg;
    rewrite bind_run;
    match goal with
    | |- (match (bind (assign_empty_dict ?g) ?k) s with pair _ _ => _ end)
         = _ -> _ =>
        let H := fresh "H" in
        pose (load := bind (assign_empty_dict g) k);
        assert (H : opens (backing_file g) g load)
          by (first [apply opens_text | apply opens_csv]; framed);
        change (bind (assign_empty_dict g) k s) with (load s);
        destruct (H s) as [Hf [m0 Hm0]]; clear H;
        destruct (load s) as [[[]|e] s0]; simpl in *; [|done];
        intros Hl; exists s0; split; [by eauto|]; split; [done|];
        rewrite bind_run; simpl; rewrite Hm0; rewrite bind_run; simpl; done
    end.
Qed.

(** ** The warning switch *)

(** C3, amended.  A lookup made right after [ToggleWarnings enable]
    decides its not-found warning by [enable], whether the dataset was
    loaded before the switch was set or is loaded by this very call.  A
    lookup of a symbol that is present, in a dataset that was loaded
    before, prints nothing whatever [enable] is: the default-value checks
    are made only while the Open Babel table is parsed and are not
    repeated on later lookups. *)
Theorem warning_switch_takes_effect g symbol copy enable s v s1 m :
  lookup g symbol copy (ToggleWarnings enable s).2 = (Ok v, s1) ->
  globals s1 g = Some m ->
  (m !! symbol = None ->
   v = VNone /\
   if enable
   then exists out, stdout s1 = out ++ [not_found_warning g symbol]
   else stdout s1 = stdout s) /\
  (is_Some (globals s g) -> is_Some (m !! symbol) -> stdout s1 = stdout s).
Proof.
  simpl. set (t := set_PrintWarnings enable s). intros Hrun Hm.
  assert (Habsent : forall s0,
    is_Some (globals s0 g) -> _PrintWarnings s0 = enable ->
    lookup g symbol copy s0 = (Ok v, s1) -> m !! symbol = None ->
    v = VNone /\
    if enable
    then stdout s1 = stdout s0 ++ [not_found_warning g symbol]
    else stdout s1 = stdout s0).
  { intros s0 [m0 Hm0] Hw Hl Hnone.
    assert (m0 = m) as ->.
    { destruct (lookup_loaded g symbol copy s0) as [_ Hgl _]; [by eauto|].
      rewrite Hl in Hgl. simpl in Hgl. rewrite Hgl in Hm. congruence. }
    rewrite (lookup_absent g symbol copy s0 m Hm0 Hnone) in Hl.
    rewrite Hw in Hl. by destruct enable; simplify_eq. }
  split.
  - intros Hnone. destruct (globals t g) as [m0|] eqn:E.
    + destruct (Habsent t) as [-> Hout]; [by eauto|done|done|done|].
      split; [done|]. destruct enable; [by eauto|done].
    + destruct (lookup_split g symbol copy t v s1 E Hrun)
        as (s0 & Hs0 & [_ _ Hw _ _ Hout] & Hl).
      destruct (Habsent s0) as [-> Hout']; [done|done|done|done|].
      split; [done|]. destruct enable; [by eauto|].
      rewrite Hout'. by apply Hout.
  - intros [m0 Hm0] Hpresent.
    assert (Ht : globals t g = Some m0) by done.
    pose proof (lookup_loaded g symbol copy t) as [_ Hgl _]; [by eauto|].
    rewrite Hrun in Hgl. simpl in Hgl.
    assert (m0 = m) as -> by (rewrite Hgl in Hm; simpl in Hm; congruence).
    pose proof (lookup_present_silent g symbol copy t m Ht Hpresent) as Hs.
    by rewrite Hrun in Hs.
Qed.

(** ** Lookups without a copy *)

(** C8.  When a lookup with [copy = False] finds its symbol, the value it
    returns is the very entry of the cache (for the list- and record-valued
    datasets: the reference to the cached object), and repeating the call
    returns the same value and changes nothing. *)
Theorem uncopied_lookup_returns_cached_object g symbol s v s1 m :
  lookup g symbol false s = (Ok v, s1) ->
  globals s1 g = Some m ->
  is_Some (m !! symbol) ->
  m !! symbol = Some v /\
  lookup g symbol false s1 = (Ok v, s1).
Proof.
  intros Hrun Hm [v' Hv'].
  assert (Hloaded : forall s0,
    is_Some (globals s0 g) -> lookup g symbol false s0 = (Ok v, s1) ->
    v' = v /\ s0 = s1).
  { intros s0 [m0 Hm0] Hl.
    assert (m0 = m) as ->.
    { destruct (lookup_loaded g symbol false s0) as [_ Hgl _]; [by eauto|].
      rewrite Hl in Hgl. simpl in Hgl. rewrite Hgl in Hm. congruence. }
    rewrite (lookup_by_reference g symbol s0 m v' Hm0 Hv') in Hl.
    by simplify_eq. }
  assert (v' = v) as ->.
  { destruct (globals s g) as [m0|] eqn:E.
    - by destruct (Hloaded s); eauto.
    - destruct (lookup_split g symbol false s v s1 E Hrun)
        as (s0 & Hs0 & _ & Hl).
      by destruct (Hloaded s0). }
  split; [done|]. by apply lookup_by_reference with m.
Qed.

(** ** Views and copies *)

Lemma view_item_dict h x d :
  view_item h x = Some (IDict d) <->
  exists l, x = VRef l /\ h !! l = Some (ODict d).
Proof.
  split.
  - destruct x; simpl; try done.
    destruct (h !! l) as [[]|] eqn:E; try done.
    intros [= ->]. eauto.
  - intros (l & -> & Hl). simpl. by rewrite Hl.
Qed.

Lemma view_item_val h x v :
  view_item h x = Some (IVal v) <-> x = v /\ ref_of x = None.
Proof.
  split.
  - destruct x; simpl; try (by intros [= <-]).
    by destruct (h !! l) as [[]|].
  - intros [<- Hr]. by destruct x.
Qed.

(** A view depends only on the objects it reaches. *)
Lemma view_item_agree h h' x i :
  (forall l, l < length h -> h' !! l = h !! l) ->
  view_item h x = Some i -> view_item h' x = Some i.
Proof.
  intros Hagree. destruct x; simpl; try done.
  destruct (h !! l) as [o|] eqn:E; [|done].
  rewrite Hagree, E; [done|]. by eapply lookup_lt_Some.
Qed.

Lemma view_items_agree h h' xs items :
  (forall l, l < length h -> h' !! l = h !! l) ->
  mapM (view_item h) xs = Some items ->
  mapM (view_item h') xs = Some items.
Proof.
  intros Hagree. rewrite !mapM_Some. intros H.
  eapply Forall2_impl; [done|]. intros x i. by apply view_item_agree.
Qed.

Lemma view_agree h h' v c :
  (forall l, l < length h -> h' !! l = h !! l) ->
  view h v = Some c -> view h' v = Some c.
Proof.
  intros Hagree. destruct v; simpl; try done.
  destruct (h !! l) as [o|] eqn:E; [|done].
  rewrite Hagree, E by (by eapply lookup_lt_Some).
  destruct o as [xs|d]; [|done].
  destruct (mapM (view_item h) xs) as [items|] eqn:Ex; [|done].
  by rewrite (view_items_agree h h' xs items).
Qed.

Lemma agree_app (h h' : list object) l : l < length h -> (h ++ h') !! l = h !! l.
Proof. intros. by apply lookup_app_l. Qed.

(** Copying a list of dictionaries creates one new dictionary per
    element, in order, with the same fields. *)
Lemma map_m_dict_copy xs ds s :
  Forall2 (fun x d => view_item (heap s) x = Some (IDict d)) xs ds ->
  map_m dict_copy xs s =
  (Ok (VRef <$> seq (length (heap s)) (length ds)),
   set_heap (heap s ++ (ODict <$> ds)) s).
Proof.
  intros H. revert s H. revert ds.
  induction xs as [|x xs IH]; intros ds s H.
  - apply Forall2_nil_inv_l in H as ->. simpl.
    unfold ret. rewrite app_nil_r. by destruct s.
  - apply Forall2_cons_inv_l in H as (d & ds' & Hx & Hxs & ->).
    apply view_item_dict in Hx as (l & -> & Hl).
    simpl. rewrite bind_run.
    unfold dict_copy at 1. rewrite bind_run. simpl. rewrite Hl. simpl.
    rewrite bind_run.
    rewrite (IH ds').
    + simpl. rewrite length_app. simpl.
      replace (length (heap s) + 1) with (S (length (heap s))) by lia.
      by rewrite <- app_assoc.
    + simpl. eapply Forall2_impl; [done|]. intros x d' Hv. simpl in Hv.
      apply (view_item_agree (heap s)); [|done].
      intros; by apply agree_app.
Qed.

Lemma view_list_inv h v items :
  view h v = Some (CList items) ->
  exists l xs,
    v = VRef l /\ h !! l = Some (OList xs) /\
    mapM (view_item h) xs = Some items.
Proof.
  destruct v; simpl; try done.
  destruct (h !! l) as [[xs|d]|] eqn:E; try done.
  destruct (mapM (view_item h) xs) as [items'|] eqn:Ex; [|done].
  intros [= <-]. eauto.
Qed.

Lemma view_dict_inv h v d :
  view h v = Some (CDict d) ->
  exists l, v = VRef l /\ h !! l = Some (ODict d).
Proof.
  destruct v; simpl; try done.
  destruct (h !! l) as [[xs|d']|] eqn:E; try done.
  - by destruct (mapM (view_item h) xs).
  - intros [= <-]. eauto.
Qed.

Lemma view_new_list h xs (items : list item) :
  mapM (view_item h) xs = Some items ->
  view (h ++ [OList xs]) (VRef (length h)) = Some (CList items).
Proof.
  intros H. simpl. rewrite list_lookup_middle by done.
  rewrite (view_items_agree h (h ++ [OList xs]) xs items); [done| |done].
  intros; by apply agree_app.
Qed.

Lemma plain_values_own_nothing h xs (vs : list value) :
  mapM (view_item h) xs = Some (IVal <$> vs) -> omap ref_of xs = [].
Proof.
  rewrite mapM_Some. revert vs.
  induction xs as [|x xs IH]; intros vs H; [done|].
  apply Forall2_cons_inv_l in H as (i & is' & Hx & Hxs & Hvs).
  destruct vs as [|v vs]; simplify_eq/=.
  apply view_item_val in Hx as [_ ->]. by apply (IH vs).
Qed.

Lemma dict_refs_own h xs ds :
  Forall2 (fun x d => view_item h x = Some (IDict d)) xs ds ->
  exists ls, xs = VRef <$> ls /\ Forall (fun l => l < length h) ls.
Proof.
  induction 1 as [|x d xs ds Hx _ (ls & -> & Hls)].
  - by exists [].
  - apply view_item_dict in Hx as (l & -> & Hl).
    exists (l :: ls). split; [done|].
    constructor; [by eapply lookup_lt_Some|done].
Qed.

Lemma omap_ref_of_refs (ls : list loc) : omap ref_of (VRef <$> ls) = ls.
Proof. induction ls as [|l ls IH]; csimpl; by f_equal. Qed.

Lemma view_new_dicts h (ds : list (gmap string value)) rest :
  Forall2 (fun x d => view_item (h ++ (ODict <$> ds) ++ rest) x = Some (IDict d))
          (VRef <$> seq (length h) (length ds)) ds.
Proof.
  revert h. induction ds as [|d ds IH]; intros h; csimpl; [done|].
  constructor.
  - simpl. by rewrite list_lookup_middle.
  - specialize (IH (h ++ [ODict d])).
    rewrite length_app in IH. simpl in IH.
    replace (length h + 1) with (S (length h)) in IH by lia.
    by rewrite <- app_assoc in IH.
Qed.

(** The copy of a cached list of dictionaries: the copies of the
    dictionaries come first, then the new list that refers to them. *)
Lemma copy_record_list s l xs (ds : list (gmap string value)) :
  heap s !! l = Some (OList xs) ->
  mapM (view_item (heap s)) xs = Some (IDict <$> ds) ->
  (let* items := list_items (VRef l) in
   let* copies := map_m dict_copy items in
   alloc (OList copies)) s =
  (Ok (VRef (length (heap s) + length ds)),
   set_heap (heap s ++ (ODict <$> ds)
             ++ [OList (VRef <$> seq (length (heap s)) (length ds))]) s).
Proof.
  intros Hl Hxs. apply mapM_Some in Hxs. apply Forall2_fmap_r in Hxs.
  unfold list_items. rewrite !bind_run. simpl. rewrite Hl. simpl.
  rewrite bind_run, (map_m_dict_copy xs ds s Hxs). unfold alloc. simpl.
  rewrite length_app, length_fmap. by rewrite <- app_assoc.
Qed.

Lemma view_copied_list h (ds : list (gmap string value)) :
  let refs := VRef <$> seq (length h) (length ds) in
  let h' := h ++ (ODict <$> ds) ++ [OList refs] in
  view h' (VRef (length h + length ds)) = Some (CList (IDict <$> ds)) /\
  Forall (fun l' => length h <= l' < length h')
         (owned h' (VRef (length h + length ds))).
Proof.
  intros refs h'.
  assert (Hlist : h' !! (length h + length ds) = Some (OList refs)).
  { unfold h'. rewrite app_assoc.
    replace (length h + length ds) with (length (h ++ (ODict <$> ds)))
      by (by rewrite length_app, length_fmap).
    by apply list_lookup_middle. }
  assert (Hlen : length h' = S (length h + length ds)).
  { unfold h'. rewrite !length_app, length_fmap. simpl. lia. }
  split.
  - simpl. rewrite Hlist.
    assert (Hitems : mapM (view_item h') refs = Some (IDict <$> ds)).
    { apply mapM_Some, Forall2_fmap_r.
      apply (view_new_dicts h ds [OList refs]). }
    by rewrite Hitems.
  - unfold owned. rewrite Hlist. unfold refs at 1.
    rewrite omap_ref_of_refs, Hlen.
    constructor; [lia|]. apply Forall_forall. intros l' Hl'.
    apply elem_of_seq in Hl'. lia.
Qed.

(** A copying lookup of a key of a loaded dataset creates new objects
    only, returns a container with the same contents as the cached one,
    and every object of that container is one of the new ones. *)
Lemma lookup_copy g symbol s m v c :
  takes_copy g = true ->
  globals s g = Some m ->
  m !! symbol = Some v ->
  view (heap s) v = Some c ->
  well_shaped g c ->
  exists l new,
    lookup g symbol true s = (Ok (VRef l), set_heap (heap s ++ new) s) /\
    view (heap s ++ new) (VRef l) = Some c /\
    Forall (fun l' => length (heap s) <= l' < length (heap s ++ new))
           (owned (heap s ++ new) (VRef l)).
Proof.
  intros Hcopy Hg Hm Hview Hshape.
  destruct g; try done; unfold_lookup; rewrite bind_run; simpl; rewrite Hg;
    rewrite bind_run; simpl; rewrite bind_run;
    unfold contains; rewrite Hg, Hm; simpl;
    rewrite bind_run; unfold getitem; rewrite Hg, Hm.
  - (* a list of plain values *)
    destruct Hshape as [vs ->].
    apply view_list_inv in Hview as (l & xs & -> & Hl & Hxs).
    unfold list_items. rewrite !bind_run. simpl. rewrite Hl. simpl.
    exists (length (heap s)), [OList xs]. split; [done|].
    split; [by apply view_new_list|].
    unfold owned. rewrite list_lookup_middle by done.
    rewrite (plain_values_own_nothing _ _ _ Hxs).
    constructor; [|done]. rewrite length_app. simpl. lia.
  - (* a dictionary *)
    destruct Hshape as [d ->].
    apply view_dict_inv in Hview as (l & -> & Hl).
    unfold dict_copy. rewrite !bind_run. simpl. rewrite Hl. simpl.
    exists (length (heap s)), [ODict d]. split; [done|].
    split.
    + simpl. by rewrite list_lookup_middle.
    + unfold owned. rewrite list_lookup_middle by done.
      constructor; [|done]. rewrite length_app. simpl. lia.
  - (* a list of dictionaries *)
    destruct Hshape as [ds ->].
    apply view_list_inv in Hview as (l & xs & -> & Hl & Hxs).
    rewrite (copy_record_list s l xs ds Hl Hxs).
    eexists _, _. split; [done|]. by apply view_copied_list.
  - (* a list of dictionaries *)
    destruct Hshape as [ds ->].
    apply view_list_inv in Hview as (l & xs & -> & Hl & Hxs).
    rewrite (copy_record_list s l xs ds Hl Hxs).
    eexists _, _. split; [done|]. by apply view_copied_list.
Qed.

(** ** Lookups with a copy *)

(** C7, amended.  For the four lookups that take a [copy] argument, in a
    loaded dataset and for a key whose entry has the dataset's shape: a
    copying lookup returns a container equal in value to the cached one
    and made of objects created by that call only.  After any change to
    objects created since the call began (in particular to the returned
    container and the records in it), a later lookup, copying or not,
    still returns a container with the original contents, and a later
    copy is again made of new objects. *)
Theorem copied_lookups_are_independent g symbol s m v c :
  takes_copy g = true ->
  globals s g = Some m ->
  m !! symbol = Some v ->
  view (heap s) v = Some c ->
  well_shaped g c ->
  exists v1 s1,
    lookup g symbol true s = (Ok v1, s1) /\
    view (heap s1) v1 = Some c /\
    Forall (fun l => length (heap s) <= l < length (heap s1))
           (owned (heap s1) v1) /\
    forall s' copy',
      globals s' = globals s1 ->
      length (heap s1) <= length (heap s') ->
      (forall l, l < length (heap s) -> heap s' !! l = heap s1 !! l) ->
      exists v2 s2,
        lookup g symbol copy' s' = (Ok v2, s2) /\
        view (heap s2) v2 = Some c /\
        (copy' = true ->
         Forall (fun l => length (heap s1) <= l) (owned (heap s2) v2)).
Proof.
  intros Hcopy Hg Hm Hview Hshape.
  destruct (lookup_copy g symbol s m v c) as (l & new & Hrun & Hv & Hown);
    try done.
  eexists _, _. split; [done|]. split; [done|]. split; [done|].
  simpl. intros s' copy' Hg' Hlen Hagree.
  assert (Hg'' : globals s' g = Some m) by (by rewrite Hg').
  assert (Hview' : view (heap s') v = Some c).
  { apply (view_agree (heap s)); [|done].
    intros l' Hl'. rewrite Hagree by done. by apply agree_app. }
  destruct copy'.
  - destruct (lookup_copy g symbol s' m v c)
      as (l2 & new2 & Hrun2 & Hv2 & Hown2); try done.
    eexists _, _. split; [done|]. split; [done|]. intros _. simpl.
    eapply Forall_impl; [done|]. simpl. intros; lia.
  - exists v, s'. split; [by apply lookup_by_reference with m|].
    by split.
Qed.

(** ** Loading a multi-record table *)

Lemma records_of_snoc k recs key d :
  records_of k (recs ++ [(key, d)]) =
  records_of k recs ++ (if decide (key = k) then [d] else []).
Proof.
  unfold records_of. rewrite filter_app, fmap_app. f_equal.
  rewrite filter_cons, filter_nil. simpl. by case_decide.
Qed.

(** Replacing a list object leaves the view of every dictionary
    element as it was. *)
Lemma view_item_insert_list h h' l ys o x i :
  h !! l = Some (OList ys) ->
  view_item h x = Some i ->
  view_item (<[l := o]> (h ++ h')) x = Some i.
Proof.
  intros Hl. destruct x as [| | | | |l0]; simpl; try done.
  destruct (h !! l0) as [[|d]|] eqn:E; try done.
  intros [= <-]. assert (l <> l0) by congruence.
  rewrite list_lookup_insert_ne by done.
  rewrite lookup_app_l by (by eapply lookup_lt_Some). by rewrite E.
Qed.

(** ... and the view of every other container. *)
Lemma view_insert_other h h' l ys o v c :
  h !! l = Some (OList ys) ->
  v <> VRef l ->
  view h v = Some c ->
  view (<[l := o]> (h ++ h')) v = Some c.
Proof.
  intros Hl Hne. destruct v as [| | | | |l0]; simpl; try done.
  assert (l <> l0) by congruence.
  destruct (h !! l0) as [o0|] eqn:E; [|done].
  rewrite list_lookup_insert_ne by done.
  rewrite lookup_app_l by (by eapply lookup_lt_Some). rewrite E.
  destruct o0 as [xs|d]; [|done].
  destruct (mapM (view_item h) xs) as [items|] eqn:Ex; [|done].
  intros [= <-].
  assert (mapM (view_item (<[l:=o]> (h ++ h'))) xs = Some items) as ->; [|done].
  apply mapM_Some. apply mapM_Some in Ex.
  eapply Forall2_impl; [done|]. intros x i.
  by apply view_item_insert_list with ys.
Qed.

Lemma view_ref_lt h v c : view h v = Some c -> exists l, v = VRef l /\ l < length h.
Proof.
  destruct v; simpl; try done.
  destruct (h !! l) eqn:E; [|done]. intros _. exists l. split; [done|].
  by eapply lookup_lt_Some.
Qed.

(** The step both multi-record loaders take for a row with key [key] and
    record [d]: the record becomes a new dictionary, appended to the
    key's list if there is one, else put into a new list. *)
Lemma store_record g key d s recs :
  models g s recs ->
  exists s',
    (let* dataset := alloc (ODict d) in
     let* present := contains g key in
     if present then
       let* datasets := getitem g key in
       list_append datasets dataset
     else
       let* datasets := alloc (OList [dataset]) in
       setitem g key datasets) s = (Ok tt, s') /\
    models g s' (recs ++ [(key, d)]).
Proof.
  intros (m & Hg & Hkeys & Hinj).
  rewrite bind_run. simpl. rewrite bind_run. unfold contains. simpl.
  rewrite Hg. pose proof (Hkeys key) as Hkey.
  destruct (m !! key) as [v|] eqn:Ek; simpl.
  - (* the key has a list: append *)
    destruct Hkey as [Hne Hview].
    apply view_list_inv in Hview as (l & xs & -> & Hl & Hxs).
    rewrite bind_run. unfold getitem. simpl. rewrite Hg, Ek.
    unfold list_append. rewrite bind_run. simpl.
    rewrite lookup_app_l by (by eapply lookup_lt_Some). rewrite Hl. simpl.
    eexists. split; [done|].
    exists m. split; [done|]. split; [|done]. simpl.
    intros k. specialize (Hkeys k). rewrite records_of_snoc.
    destruct (m !! k) as [v|] eqn:Ev.
    + destruct Hkeys as [Hne' Hview']. split.
      { by destruct (records_of k recs). }
      case_decide as Hk.
      * subst k. simplify_eq. simpl.
        rewrite list_lookup_insert_eq
          by (rewrite length_app; apply lookup_lt_Some in Hl; lia).
        rewrite fmap_app. simpl.
        assert (mapM (view_item (<[l:=OList (xs ++ [VRef (length (heap s))])]>
                                   (heap s ++ [ODict d])))
                     (xs ++ [VRef (length (heap s))])
                = Some ((IDict <$> records_of key recs) ++ [IDict d])) as ->;
          [|done].
        apply mapM_Some, Forall2_app.
        -- apply mapM_Some in Hxs. eapply Forall2_impl; [done|].
           intros x i. by apply view_item_insert_list with xs.
        -- constructor; [|done]. simpl.
           rewrite list_lookup_insert_ne
             by (apply lookup_lt_Some in Hl; lia).
           by rewrite list_lookup_middle.
      * rewrite app_nil_r.
        apply view_insert_other with xs; [done| |done].
        intros ->. by apply Hk, (Hinj key k (VRef l)).
    + case_decide as Hk; [congruence|]. by rewrite app_nil_r.
  - (* a new key: a new list *)
    rewrite bind_run. simpl. unfold setitem. simpl. rewrite Hg.
    eexists. split; [done|].
    exists (<[key := VRef (length (heap s ++ [ODict d]))]> m).
    split; [simpl; unfold upd; by rewrite decide_True|]. simpl.
    assert (Hold : forall k v c,
      m !! k = Some v -> view (heap s) v = Some c ->
      view ((heap s ++ [ODict d])
            ++ [OList [VRef (length (heap s))]]) v = Some c).
    { intros k v c _ Hv. apply (view_agree (heap s)); [|done].
      intros l Hl. rewrite <- app_assoc. by apply agree_app. }
    split.
    + intros k. rewrite records_of_snoc.
      destruct (decide (key = k)) as [<-|Hk].
      * rewrite lookup_insert_eq, Hkey. simpl. split; [done|].
        rewrite list_lookup_middle by done. simpl.
        rewrite lookup_app_l by (rewrite length_app; simpl; lia).
        by rewrite list_lookup_middle.
      * rewrite lookup_insert_ne by done. rewrite app_nil_r.
        specialize (Hkeys k). destruct (m !! k) as [v|] eqn:Ev; [|done].
        destruct Hkeys as [Hne' Hview']. split; [done|]. by eapply Hold.
    + assert (Hfresh : forall k,
        m !! k = Some (VRef (length (heap s ++ [ODict d]))) -> False).
      { intros k Hk'. specialize (Hkeys k). rewrite Hk' in Hkeys.
        destruct Hkeys as [_ Hv].
        apply view_ref_lt in Hv as (l & [= <-] & Hlt).
        rewrite length_app in Hlt. simpl in Hlt. lia. }
      intros k k' v.
      destruct (decide (key = k)) as [<-|Hk];
        destruct (decide (key = k')) as [<-|Hk']; try done.
      * rewrite lookup_insert_eq, lookup_insert_ne by done.
        intros [= <-] Hv. by destruct (Hfresh k').
      * rewrite lookup_insert_ne, lookup_insert_eq by done.
        intros Hv [= <-]. by destruct (Hfresh k).
      * rewrite !lookup_insert_ne by done. apply Hinj.
Qed.

(** A loop whose body stores one record per row builds the model of all
    the rows. *)
Lemma load_rows g (body : list string -> M unit)
    (record : list string -> option (string * gmap string value))
    rows recs0 recs s :
  (forall row key d s recs,
     record row = Some (key, d) ->
     models g s recs ->
     exists s', body row s = (Ok tt, s') /\ models g s' (recs ++ [(key, d)])) ->
  mapM record rows = Some recs ->
  models g s recs0 ->
  exists s', for_each rows body s = (Ok tt, s') /\ models g s' (recs0 ++ recs).
Proof.
  intros Hbody Hrows. apply mapM_Some in Hrows.
  revert recs0 s. induction Hrows as [|row [key d] rows recs Hrow _ IH];
    intros recs0 s Hs.
  - exists s. rewrite app_nil_r. by split.
  - destruct (Hbody row key d s recs0 Hrow Hs) as (s1 & Hrun & Hs1).
    destruct (IH _ s1 Hs1) as (s' & Hrun' & Hs').
    exists s'. simpl. rewrite bind_run, Hrun.
    split; [done|]. by rewrite <- app_assoc in Hs'.
Qed.

Lemma models_empty g s : globals s g = Some ∅ -> models g s [].
Proof.
  intros Hg. exists ∅. split; [done|]. split.
  - intros k. by rewrite lookup_empty.
  - intros k k' v. by rewrite lookup_empty.
Qed.

Lemma bind_ret {A B} (a : A) (f : A -> M B) s : bind (ret a) f s = f a s.
Proof. reflexivity. Qed.

Lemma bind_bind {A B C} (m : M A) (f : A -> M B) (g : B -> M C) s :
  bind (bind m f) g s = bind m (fun a => bind (f a) g) s.
Proof. unfold bind. by destruct (m s) as [[a|e] s']. Qed.

Lemma bind_lift {A B} e (o : option A) a (f : A -> M B) s :
  o = Some a -> bind (lift e o) f s = f a s.
Proof. by intros ->. Qed.

(** Runs the column accesses at the head of a row body, given their
    outcomes as hypotheses. *)
Ltac column :=
  unfold int_at, float_at, index, int, float;
  repeat first
    [ rewrite bind_bind
    | erewrite bind_lift by eassumption
    | rewrite bind_ret ];
  cbv beta.

Lemma sse2015_load symbol copy s rows recs :
  globals s _ElementSSE2015Data = None ->
  csv_files (data_directory s) !! "SSE_2015.csv" = Some rows ->
  mapM (sse2015_record builtin_int builtin_float) rows = Some recs ->
  exists s0,
    models _ElementSSE2015Data s0 recs /\
    LookupElementSSE2015Data builtin_int builtin_float symbol copy s =
    LookupElementSSE2015Data builtin_int builtin_float symbol copy s0.
Proof.
  intros Hg Hfile Hrows.
  unfold LookupElementSSE2015Data at 1. rewrite bind_run. simpl. rewrite Hg.
  rewrite bind_run.
  rewrite (bind_run (assign_empty_dict _)). simpl.
  rewrite (bind_run (open_csv _)). unfold open_csv. simpl. rewrite Hfile.
  match goal with
  | |- context [for_each rows ?body ?s1] =>
      destruct (load_rows _ElementSSE2015Data body
                  (sse2015_record builtin_int builtin_float) rows [] recs s1)
        as (s0 & Hrun & Hs0)
  end.
  - clear. intros row key d s recs Hrow Hs.
    unfold sse2015_record in Hrow.
    destruct (row !! 0) as [key'|] eqn:E0; simpl in Hrow; [|done].
    destruct (row !! 1) as [c1|] eqn:E1; simpl in Hrow; [|done].
    destruct (builtin_int c1) as [state|] eqn:E1'; simpl in Hrow; [|done].
    destruct (row !! 2) as [c2|] eqn:E2; simpl in Hrow; [|done].
    destruct (builtin_float c2) as [sse|] eqn:E2'; simpl in Hrow; [|done].
    injection Hrow as <- <-.
    column. by apply store_record.
  - done.
  - apply models_empty. simpl. unfold upd. by rewrite decide_True.
  - exists s0. split; [done|]. rewrite Hrun.
    destruct Hs0 as (m & Hm & _).
    unfold LookupElementSSE2015Data. rewrite (bind_run (get_global _)).
    simpl. rewrite Hm. by rewrite (bind_run (ret tt)).
Qed.

Lemma shannon_load symbol copy s header rows recs :
  globals s _ElementShannonRadiiData = None ->
  csv_files (data_directory s) !! "shannon_radii.csv" = Some (header :: rows) ->
  mapM (shannon_record builtin_int builtin_float) rows = Some recs ->
  exists s0,
    models _ElementShannonRadiiData s0 recs /\
    LookupElementShannonRadiusData builtin_int builtin_float symbol copy s =
    LookupElementShannonRadiusData builtin_int builtin_float symbol copy s0.
Proof.
  intros Hg Hfile Hrows.
  unfold LookupElementShannonRadiusData at 1. rewrite bind_run. simpl.
  rewrite Hg. rewrite bind_run.
  rewrite (bind_run (assign_empty_dict _)). simpl.
  rewrite (bind_run (open_csv _)). unfold open_csv. simpl. rewrite Hfile.
  change (next (header :: rows)) with (@ret (list (list string)) rows).
  rewrite bind_ret.
  match goal with
  | |- context [for_each rows ?body ?s1] =>
      destruct (load_rows _ElementShannonRadiiData body
                  (shannon_record builtin_int builtin_float) rows [] recs s1)
        as (s0 & Hrun & Hs0)
  end.
  - clear. intros row key d s recs Hrow Hs.
    unfold shannon_record in Hrow.
    destruct (row !! 0) as [key'|] eqn:E0; simpl in Hrow; [|done].
    destruct (row !! 1) as [c1|] eqn:E1; simpl in Hrow; [|done].
    destruct (builtin_int c1) as [charge|] eqn:E1'; simpl in Hrow; [|done].
    destruct (row !! 2) as [c2|] eqn:E2; simpl in Hrow; [|done].
    destruct (row !! 3) as [c3|] eqn:E3; simpl in Hrow; [|done].
    destruct (builtin_float c3) as [crystal|] eqn:E3'; simpl in Hrow; [|done].
    destruct (row !! 4) as [c4|] eqn:E4; simpl in Hrow; [|done].
    destruct (builtin_float c4) as [ionic|] eqn:E4'; simpl in Hrow; [|done].
    destruct (row !! 5) as [c5|] eqn:E5; simpl in Hrow; [|done].
    injection Hrow as <- <-.
    column. by apply store_record.
  - done.
  - apply models_empty. simpl. unfold upd. by rewrite decide_True.
  - exists s0. split; [done|]. rewrite Hrun.
    destruct Hs0 as (m & Hm & _).
    unfold LookupElementShannonRadiusData. rewrite (bind_run (get_global _)).
    simpl. rewrite Hm. by rewrite (bind_run (ret tt)).
Qed.

(** C6.  For the Shannon-radius and the SSE-2015 table: when the file is
    there and all its data rows parse, the first lookup of a symbol that
    occurs in column 0 returns a list with one record per row of that
    symbol, holding that row's fields, in the order of the rows in the
    file; with a copy or without. *)
Theorem multi_record_lookup_keeps_file_order g symbol copy s rows body recs :
  multi_record g = true ->
  globals s g = None ->
  csv_files (data_directory s) !! backing_file g = Some rows ->
  data_rows g rows = Some body ->
  mapM (record_of builtin_int builtin_float g) body = Some recs ->
  records_of symbol recs <> [] ->
  exists v s',
    lookup g symbol copy s = (Ok v, s') /\
    view (heap s') v = Some (CList (IDict <$> records_of symbol recs)).
Proof.
  intros Hmulti Hg Hfile Hbody Hrecs Hpresent.
  assert (Hload : exists s0,
    models g s0 recs /\ lookup g symbol copy s = lookup g symbol copy s0).
  { destruct g; try done; simpl in *.
    - destruct rows as [|header rows]; simplify_eq.
      by apply (shannon_load symbol copy s header body recs).
    - simplify_eq. by apply (sse2015_load symbol copy s body recs). }
  destruct Hload as (s0 & (m & Hm & Hkeys & _) & ->).
  specialize (Hkeys symbol).
  destruct (m !! symbol) as [v|] eqn:Ev; [|done].
  destruct Hkeys as [_ Hview].
  destruct copy.
  - destruct (lookup_copy g symbol s0 m v
                (CList (IDict <$> records_of symbol recs)))
      as (l & new & Hrun & Hv & _); try done.
    + by destruct g.
    + destruct g; try done; simpl; eauto.
    + eauto.
  - exists v, s0. split; [|done]. by apply lookup_by_reference with m.
Qed.

(** ** Loading the Open Babel table *)

Lemma bind_alloc {B} o (f : value -> M B) s :
  bind (alloc o) f s = f (VRef (length (heap s))) (set_heap (heap s ++ [o]) s).
Proof. reflexivity. Qed.

(** Assigning a field of the dictionary created last. *)
Lemma bind_dict_set_last {B} h d k x (f : unit -> M B) s :
  heap s = h ++ [ODict d] ->
  bind (dict_set (VRef (length h)) k x) f s =
  f tt (set_heap (h ++ [ODict (<[k := x]> d)]) s).
Proof.
  intros Hh. unfold dict_set. rewrite bind_bind, bind_run. simpl.
  rewrite Hh, list_lookup_middle by done. simpl.
  rewrite bind_run. simpl. rewrite Hh.
  replace (length h) with (length h + 0) at 1 by lia.
  by rewrite insert_app_r.
Qed.

Lemma bind_warn_if {B} c msg (f : unit -> M B) s :
  bind (warn_if c msg) f s =
  f tt (set_stdout (stdout s ++ (if _PrintWarnings s && c then [msg] else []))
          s).
Proof.
  unfold warn_if. rewrite bind_bind, bind_run. simpl.
  destruct (_PrintWarnings s && c); [done|].
  rewrite bind_ret, app_nil_r. by destruct s.
Qed.

(** One line of the table: the loop body does to the state what
    [store_element] says. *)
Lemma element_line_run line e s m :
  globals s _ElementOpenBabelDerivedData = Some m ->
  element_line builtin_int builtin_float line = Some e ->
  (let line := strip line in
   let* c := str_index line 0 in
   if negb (Ascii.eqb c "#"%char) then
     let items := split line in
     let* key := index items 1 in
     let* dataset := alloc (ODict ∅) in
     let* number := int_at items 0 in
     dict_set dataset "Number" (VInt number) ;;
     let* areNeg := float_at items 2 in
     dict_set dataset "ARENeg" (VFloat areNeg) ;;
     let* rCov := float_at items 3 in
     warn_if (PrimFloat.eqb rCov 1.6)
       ("WARNING: Covalent radius for element " +:+ key +:+
        " may be set to the default value of 1.6 in the Open Babel-derived data.") ;;
     let* rCov' := float_at items 3 in
     dict_set dataset "RCov" (VFloat rCov') ;;
     let* rBO := float_at items 4 in
     dict_set dataset "RBO" (VFloat rBO) ;;
     let* rVDW := float_at items 5 in
     dict_set dataset "RVdW" (VFloat rVDW) ;;
     let* maxBnd := int_at items 6 in
     dict_set dataset "MaxBnd" (VInt maxBnd) ;;
     let* mass := float_at items 7 in
     dict_set dataset "Mass" (VFloat mass) ;;
     let* elNeg := float_at items 8 in
     warn_if (PrimFloat.eqb elNeg 0.0)
       ("WARNING: Pauling electronegativity for " +:+ key +:+
        " may be set to the default of zero in the Open Babel-derived data.") ;;
     dict_set dataset "ElNeg." (VFloat elNeg) ;;
     let* ionization := float_at items 9 in
     warn_if (PrimFloat.eqb ionization 0.0)
       ("WARNING: Ionisation potential for " +:+ key +:+
        " may be set to the default of zero in the Open Babel-derived data.") ;;
     dict_set dataset "Ionization" (VFloat ionization) ;;
     let* elAffinity := float_at items 10 in
     warn_if (PrimFloat.eqb elAffinity 0.0)
       ("WARNING: Electron affinity for " +:+ key +:+
        " may be set to the default of zero in the Open Babel-derived data.") ;;
     dict_set dataset "ElAffinity" (VFloat elAffinity) ;;
     let* r := float_at items 11 in
     let* g := float_at items 12 in
     let* b := float_at items 13 in
     dict_set dataset "RGB" (VTuple [r; g; b]) ;;
     let* name := index items 14 in
     dict_set dataset "Name" (VStr name) ;;
     let* key' := index items 1 in
     setitem _ElementOpenBabelDerivedData key' dataset
   else ret tt) s = (Ok tt, store_element e s).
Proof.
  intros Hg Hline. unfold element_line in Hline. cbv zeta.
  set (items := split (strip line)) in *.
  destruct (String.get 0 (strip line)) as [c|] eqn:Ec; simpl in Hline; [|done].
  unfold str_index. erewrite bind_lift by eassumption.
  destruct (negb (Ascii.eqb c "#"%char)); [|by simplify_eq].
  unfold element_entry in Hline.
  destruct (items !! 1) as [key|] eqn:E1; simpl in Hline; [|done].
  destruct (items !! 0) as [c0|] eqn:E0; simpl in Hline; [|done].
  destruct (builtin_int c0) as [number|] eqn:P0; simpl in Hline; [|done].
  destruct (items !! 2) as [c2|] eqn:E2; simpl in Hline; [|done].
  destruct (builtin_float c2) as [areNeg|] eqn:P2; simpl in Hline; [|done].
  destruct (items !! 3) as [c3|] eqn:E3; simpl in Hline; [|done].
  destruct (builtin_float c3) as [rCov|] eqn:P3; simpl in Hline; [|done].
  destruct (items !! 4) as [c4|] eqn:E4; simpl in Hline; [|done].
  destruct (builtin_float c4) as [rBO|] eqn:P4; simpl in Hline; [|done].
  destruct (items !! 5) as [c5|] eqn:E5; simpl in Hline; [|done].
  destruct (builtin_float c5) as [rVdW|] eqn:P5; simpl in Hline; [|done].
  destruct (items !! 6) as [c6|] eqn:E6; simpl in Hline; [|done].
  destruct (builtin_int c6) as [maxBnd|] eqn:P6; simpl in Hline; [|done].
  destruct (items !! 7) as [c7|] eqn:E7; simpl in Hline; [|done].
  destruct (builtin_float c7) as [mass|] eqn:P7; simpl in Hline; [|done].
  destruct (items !! 8) as [c8|] eqn:E8; simpl in Hline; [|done].
  destruct (builtin_float c8) as [elNeg|] eqn:P8; simpl in Hline; [|done].
  destruct (items !! 9) as [c9|] eqn:E9; simpl in Hline; [|done].
  destruct (builtin_float c9) as [ionization|] eqn:P9; simpl in Hline; [|done].
  destruct (items !! 10) as [c10|] eqn:E10; simpl in Hline; [|done].
  destruct (builtin_float c10) as [elAffinity|] eqn:P10; simpl in Hline;
    [|done].
  destruct (items !! 11) as [c11|] eqn:E11; simpl in Hline; [|done].
  destruct (builtin_float c11) as [red|] eqn:P11; simpl in Hline; [|done].
  destruct (items !! 12) as [c12|] eqn:E12; simpl in Hline; [|done].
  destruct (builtin_float c12) as [green|] eqn:P12; simpl in Hline; [|done].
  destruct (items !! 13) as [c13|] eqn:E13; simpl in Hline; [|done].
  destruct (builtin_float c13) as [blue|] eqn:P13; simpl in Hline; [|done].
  destruct (items !! 14) as [name|] eqn:E14; simpl in Hline; [|done].
  injection Hline as <-.
  column. rewrite bind_alloc.
  repeat first
    [ progress column
    | erewrite bind_dict_set_last by (simpl; reflexivity)
    | rewrite bind_warn_if ].
  unfold setitem. simpl. rewrite Hg.
  unfold store_element, set_globals. simpl.
  f_equal. f_equal; try done.
  destruct (_PrintWarnings s); simpl.
  - by rewrite <- !app_assoc.
  - by rewrite !app_nil_r.
Qed.

Lemma element_lines_run (body : string -> M unit) lines es s :
  (forall line e s m,
     globals s _ElementOpenBabelDerivedData = Some m ->
     element_line builtin_int builtin_float line = Some e ->
     body line s = (Ok tt, store_element e s)) ->
  is_Some (globals s _ElementOpenBabelDerivedData) ->
  mapM (element_line builtin_int builtin_float) lines = Some es ->
  for_each lines body s = (Ok tt, foldl (flip store_element) s es).
Proof.
  intros Hbody Hs Hlines. apply mapM_Some in Hlines. revert s Hs.
  induction Hlines as [|line e lines es Hline _ IH]; intros s [m Hm]; [done|].
  simpl. rewrite bind_run, (Hbody line e s m) by done.
  apply IH. destruct e as [[[key d] ws]|]; simpl; [|by eauto].
  unfold upd. rewrite decide_True by done. eauto.
Qed.

Lemma store_elements_warnings es s :
  _PrintWarnings (foldl (flip store_element) s es) = _PrintWarnings s.
Proof.
  revert s. induction es as [|e es IH]; intros s; [done|].
  simpl. rewrite IH. by destruct e as [[[key d] ws]|].
Qed.

Lemma store_elements_loaded es s :
  is_Some (globals s _ElementOpenBabelDerivedData) ->
  is_Some (globals (foldl (flip store_element) s es)
             _ElementOpenBabelDerivedData).
Proof.
  revert s. induction es as [|e es IH]; intros s Hs; [done|].
  simpl. apply IH. destruct e as [[[key d] ws]|]; simpl; [|done].
  unfold upd. rewrite decide_True by done. eauto.
Qed.

(** Lines with other keys leave an entry, its record and what was printed
    in place. *)
Lemma store_elements_keep es s key l d (out : list string) :
  Forall (fun e => forall k d' ws, e = Some (k, d', ws) -> k <> key) es ->
  (exists m, globals s _ElementOpenBabelDerivedData = Some m /\
             m !! key = Some (VRef l)) ->
  heap s !! l = Some (ODict d) ->
  Forall (fun w => w ∈ stdout s) out ->
  let s' := foldl (flip store_element) s es in
  (exists m, globals s' _ElementOpenBabelDerivedData = Some m /\
             m !! key = Some (VRef l)) /\
  heap s' !! l = Some (ODict d) /\
  Forall (fun w => w ∈ stdout s') out.
Proof.
  intros Hes. revert s. induction Hes as [|e es He _ IH];
    intros s Hm Hl Hout; [done|].
  simpl. apply IH; destruct e as [[[k d'] ws]|]; simpl; try done.
  - destruct Hm as (m & Hm & Hk). rewrite Hm. simpl.
    eexists. split; [unfold upd; by rewrite decide_True|].
    rewrite lookup_insert_ne; [done|]. by eapply He.
  - rewrite lookup_app_l; [done|]. by eapply lookup_lt_Some.
  - eapply Forall_impl; [done|]. simpl. intros w Hw.
    apply elem_of_app. by left.
Qed.

(** The record of a data line holds each of the four fields as parsed, and
    the line's warnings include the one for every field that equals its
    default. *)
Lemma element_entry_sentinels items key d ws :
  element_entry builtin_int builtin_float items = Some (key, d, ws) ->
  items !! 1 = Some key /\
  Forall (fun '(field, column, sentinel, warning) =>
            exists x,
              items !! column ≫= builtin_float = Some x /\
              d !! field = Some (VFloat x) /\
              (PrimFloat.eqb x sentinel = true -> warning key ∈ ws))
         sentinel_fields.
Proof.
  unfold element_entry. intros H.
  destruct (items !! 1) as [key'|] eqn:E1; simpl in H; [|done].
  destruct (items !! 0 ≫= builtin_int) as [number|]; simpl in H; [|done].
  destruct (items !! 2 ≫= builtin_float) as [areNeg|]; simpl in H; [|done].
  destruct (items !! 3 ≫= builtin_float) as [rCov|] eqn:E3; simpl in H;
    [|done].
  destruct (items !! 4 ≫= builtin_float) as [rBO|]; simpl in H; [|done].
  destruct (items !! 5 ≫= builtin_float) as [rVdW|]; simpl in H; [|done].
  destruct (items !! 6 ≫= builtin_int) as [maxBnd|]; simpl in H; [|done].
  destruct (items !! 7 ≫= builtin_float) as [mass|]; simpl in H; [|done].
  destruct (items !! 8 ≫= builtin_float) as [elNeg|] eqn:E8; simpl in H;
    [|done].
  destruct (items !! 9 ≫= builtin_float) as [ionization|] eqn:E9; simpl in H;
    [|done].
  destruct (items !! 10 ≫= builtin_float) as [elAffinity|] eqn:E10;
    simpl in H; [|done].
  destruct (items !! 11 ≫= builtin_float) as [red|]; simpl in H; [|done].
  destruct (items !! 12 ≫= builtin_float) as [green|]; simpl in H; [|done].
  destruct (items !! 13 ≫= builtin_float) as [blue|]; simpl in H; [|done].
  destruct (items !! 14) as [name|]; simpl in H; [|done].
  injection H as <- <- <-. split; [done|].
  unfold sentinel_fields, dict_of_fields.
  repeat apply Forall_cons_2; try apply Forall_nil_2;
    (eexists; split; [eassumption|]; split; [by simplify_map_eq|]);
    intros ->; set_solver.
Qed.

Lemma element_line_data line entry :
  element_line builtin_int builtin_float line = Some (Some entry) ->
  element_entry builtin_int builtin_float (split (strip line)) = Some entry.
Proof.
  unfold element_line.
  destruct (String.get 0 (strip line)) as [c|]; simpl; [|done].
  destruct (negb (Ascii.eqb c "#"%char)); [|done].
  destruct (element_entry _ _ _); simpl; congruence.
Qed.

(** C9.  The Open Babel table is loaded with warnings on and every line
    parses; [line] is the last data line for its key.  Then the lookup of
    that key returns a record that holds, for each of the covalent radius,
    the Pauling electronegativity, the ionisation potential and the
    electron affinity, the value parsed from the line's column; and for
    each of them that equals its default (1.6 for the radius, 0.0 for the
    others) the warning naming the key and the field has been printed. *)
Theorem sentinel_values_are_warned_and_kept
    copy s before line after es1 es2 key d ws :
  _PrintWarnings s = true ->
  globals s _ElementOpenBabelDerivedData = None ->
  text_files (data_directory s) !! "element.txt"
    = Some (before ++ line :: after) ->
  mapM (element_line builtin_int builtin_float) before = Some es1 ->
  element_line builtin_int builtin_float line = Some (Some (key, d, ws)) ->
  mapM (element_line builtin_int builtin_float) after = Some es2 ->
  Forall (fun e => forall k d' ws', e = Some (k, d', ws') -> k <> key) es2 ->
  exists v s',
    LookupElementOpenBabelDerivedData builtin_int builtin_float key copy s
      = (Ok v, s') /\
    view (heap s') v = Some (CDict d) /\
    Forall (fun '(field, column, sentinel, warning) =>
              exists x,
                split (strip line) !! column ≫= builtin_float = Some x /\
                d !! field = Some (VFloat x) /\
                (PrimFloat.eqb x sentinel = true ->
                 warning key ∈ stdout s'))
           sentinel_fields.
Proof.
  intros Hw Hg Hfile Hbefore Hline Hafter Hlast.
  (* the load *)
  assert (Hload : exists s0 m l,
    LookupElementOpenBabelDerivedData builtin_int builtin_float key copy s =
    LookupElementOpenBabelDerivedData builtin_int builtin_float key copy s0 /\
    globals s0 _ElementOpenBabelDerivedData = Some m /\
    m !! key = Some (VRef l) /\
    heap s0 !! l = Some (ODict d) /\
    Forall (fun w => w ∈ stdout s0) ws).
  { unfold LookupElementOpenBabelDerivedData at 1.
    rewrite bind_run. simpl. rewrite Hg. rewrite bind_run.
    rewrite (bind_run (assign_empty_dict _)). simpl.
    rewrite (bind_run (open_text _)). unfold open_text. simpl. rewrite Hfile.
    match goal with
    | |- context [for_each _ ?body ?s1] =>
        pose proof (element_lines_run body (before ++ line :: after)
                      (es1 ++ Some (key, d, ws) :: es2) s1) as Hrun
    end.
    rewrite Hrun; clear Hrun.
    2:{ intros line' e s' m' Hm' He. by apply element_line_run with m'. }
    2:{ simpl. unfold upd. rewrite decide_True by done. eauto. }
    2:{ apply mapM_Some, Forall2_app; [by apply mapM_Some|].
        constructor; [done|by apply mapM_Some]. }
    rewrite foldl_app. cbv beta iota.
    match goal with
    | |- context [foldl (flip store_element) ?s1 es1] =>
        set (sa := foldl (flip store_element) s1 es1)
    end.
    change (foldl (flip store_element) sa (Some (key, d, ws) :: es2))
      with (foldl (flip store_element)
              (store_element (Some (key, d, ws)) sa) es2).
    assert (Hwa : _PrintWarnings sa = true).
    { unfold sa. by rewrite store_elements_warnings. }
    assert (Hga : is_Some (globals sa _ElementOpenBabelDerivedData)).
    { apply store_elements_loaded. simpl. unfold upd.
      rewrite decide_True by done. eauto. }
    destruct Hga as [ma Hma].
    destruct (store_elements_keep es2
                (store_element (Some (key, d, ws)) sa)
                key (length (heap sa)) d ws Hlast)
      as ((m & Hm & Hk) & Hl & Hout).
    - simpl. eexists. split; [unfold upd; by rewrite decide_True|].
      by rewrite lookup_insert_eq.
    - simpl. by rewrite list_lookup_middle.
    - simpl. rewrite Hwa. apply Forall_forall. intros w Hin.
      apply elem_of_app. by right.
    - eexists _, m, (length (heap sa)).
      split; [|done].
      unfold LookupElementOpenBabelDerivedData.
      rewrite (bind_run (get_global _)). unfold get_global.
      cbv beta iota. rewrite Hm.
      by rewrite (bind_run (ret tt)). }
  destruct Hload as (s0 & m & l & -> & Hm & Hk & Hl & Hout).
  (* the record and the warnings of the line *)
  apply element_line_data, element_entry_sentinels in Hline as [_ Hfields].
  assert (Hview : view (heap s0) (VRef l) = Some (CDict d)).
  { simpl. by rewrite Hl. }
  assert (Hdone : forall v s',
    view (heap s') v = Some (CDict d) -> stdout s' = stdout s0 ->
    view (heap s') v = Some (CDict d) /\
    Forall (fun '(field, column, sentinel, warning) =>
              exists x,
                split (strip line) !! column ≫= builtin_float = Some x /\
                d !! field = Some (VFloat x) /\
                (PrimFloat.eqb x sentinel = true ->
                 warning key ∈ stdout s'))
           sentinel_fields).
  { intros v s' Hv Hs'. split; [done|].
    eapply Forall_impl; [exact Hfields|].
    intros [[[field column] sentinel] warning] (x & Hx & Hd & Hwarn).
    exists x. split; [done|]. split; [done|]. intros Heq. rewrite Hs'.
    rewrite Forall_forall in Hout. by apply Hout, Hwarn. }
  destruct copy.
  - destruct (lookup_copy _ElementOpenBabelDerivedData key s0 m (VRef l)
                (CDict d)) as (l' & new & Hrun & Hv & _); try done.
    + simpl. eauto.
    + simpl in Hrun. eexists _, _. split; [exact Hrun|]. by apply Hdone.
  - pose proof (lookup_by_reference _ElementOpenBabelDerivedData key s0 m
                  (VRef l) Hm Hk) as Hrun.
    simpl in Hrun. eexists _, _. split; [exact Hrun|]. by apply Hdone.
Qed.

(** ** From the rows of a table to the answers of its lookups *)

#[local] Abbreviation answers := (answers builtin_int builtin_float).

Lemma lookup_ignores_copy g symbol copy s :
  takes_copy g = false -> lookup g symbol copy s = lookup g symbol false s.
Proof. by destruct g. Qed.

Lemma seen_plain h v : plain v -> seen h v = Some (AValue v).
Proof. by destruct v. Qed.

Lemma seen_view h v c : view h v = Some c -> seen h v = Some (AContainer c).
Proof.
  intros Hv. destruct (view_ref_lt h v c Hv) as (l & -> & _).
  unfold seen. by rewrite Hv.
Qed.

(** A cache that holds the rows answers every lookup from them. *)
Lemma holds_answers g s es : holds g s es -> answers g s es.
Proof.
  intros (m & Hm & Hkeys) symbol copy. specialize (Hkeys symbol).
  destruct (expected g symbol es) as [|v|c] eqn:Ex.
  - rewrite (lookup_absent g symbol copy s m Hm Hkeys).
    eexists _, _. split; [done|].
    destruct (_PrintWarnings s); simpl; [done|].
    by rewrite app_nil_r.
  - destruct Hkeys as (Hv & Hplain & Hcopy).
    rewrite (lookup_ignores_copy g symbol copy s Hcopy).
    rewrite (lookup_by_reference g symbol s m v Hm Hv).
    eexists _, _. split; [done|]. split; [by apply seen_plain|].
    destruct (_PrintWarnings s); by rewrite app_nil_r.
  - destruct Hkeys as (v & Hv & Hview & Hshape).
    assert (Hout : stdout s = stdout s ++
                   (if _PrintWarnings s then [] else [])).
    { destruct (_PrintWarnings s); by rewrite app_nil_r. }
    assert (Hreference :
      lookup g symbol false s = (Ok v, s) /\
      seen (heap s) v = Some (AContainer c) /\ opened s = opened s /\
      globals s = globals s /\
      stdout s = stdout s ++ (if _PrintWarnings s then [] else [])).
    { split; [by apply lookup_by_reference with m|].
      split; [by apply seen_view|]. done. }
    destruct (takes_copy g) eqn:Hcopy.
    + destruct copy; [|by eexists _, _].
      destruct (lookup_copy g symbol s m v c)
        as (l & new & Hrun & Hv' & _); try done; [by apply Hshape|].
      eexists _, _. split; [exact Hrun|].
      split; [by apply seen_view|]. done.
    + rewrite (lookup_ignores_copy g symbol copy s Hcopy).
      by eexists _, _.
Qed.

(** What a row that raised left behind does not disturb the cache. *)
Lemma holds_unwinds g s s' es : holds g s es -> unwinds s s' -> holds g s' es.
Proof.
  intros (m & Hm & Hkeys) [_ Hg [new Hh] _ _].
  exists m. split; [by rewrite Hg|]. intros k. specialize (Hkeys k).
  destruct (expected g k es) as [|v|c]; try done.
  destruct Hkeys as (v & Hv & Hview & Hshape).
  exists v. split; [done|]. split; [|done].
  apply (view_agree (heap s)); [|done].
  intros l Hl. rewrite Hh. by apply agree_app.
Qed.

Lemma unwinds_refl s : unwinds s s.
Proof. by split. Qed.

Lemma stored_for_snoc k es (e : string * stored * list string) :
  stored_for k (es ++ [e]) =
  stored_for k es ++ (if decide (e.1.1 = k) then [e.1.2] else []).
Proof.
  unfold stored_for. rewrite filter_app, !fmap_app. f_equal.
  rewrite filter_cons, filter_nil. by case_decide.
Qed.

Lemma expected_snoc g k es (e : string * stored * list string) :
  multi_record g = false ->
  expected g k (es ++ [e]) =
  if decide (e.1.1 = k) then answer_of_stored e.1.2 else expected g k es.
Proof.
  intros Hg. unfold expected. rewrite Hg, stored_for_snoc.
  case_decide; [by rewrite last_snoc|by rewrite app_nil_r].
Qed.

Lemma view_items_plain h vs :
  Forall plain vs -> mapM (view_item h) vs = Some (IVal <$> vs).
Proof.
  intros Hvs. apply mapM_Some, Forall2_fmap_r.
  induction Hvs as [|v vs Hv _ IH]; constructor; [|done].
  by destruct v.
Qed.

Lemma shape_cases g st :
  shape_ok g st ->
  match st with
  | Plain v => plain v /\ takes_copy g = false
  | Fresh (OList xs) => Forall plain xs /\ g = _ElementOxidationStates
  | Fresh (ODict d) =>
      multi_record g = false -> takes_copy g = true ->
      well_shaped g (CDict d)
  end.
Proof.
  destruct g; simpl; intros Hshape; destruct st as [v|[xs|d]];
    try done; destruct Hshape as (x & Hx & Hrest) || destruct Hshape as (x & Hx);
    simplify_eq; eauto.
Qed.

(** A row of a single-record table, stored, keeps the cache in step with
    the rows. *)
Lemma holds_store g s es key st ws :
  multi_record g = false ->
  shape_ok g st ->
  holds g s es ->
  holds g (store_entry g (Some (key, st, ws)) s) (es ++ [(key, st, ws)]).
Proof.
  intros Hsingle Hshape (m & Hm & Hkeys).
  apply shape_cases in Hshape.
  eexists. split.
  { simpl. unfold upd. rewrite decide_True by done. by rewrite Hm. }
  intros k. rewrite expected_snoc by done. simpl.
  destruct (decide (key = k)) as [<-|Hk].
  - rewrite lookup_insert_eq.
    destruct st as [v|[xs|d]]; simpl.
    + by destruct Hshape.
    + destruct Hshape as [Hplain ->].
      eexists. split; [done|].
      split; [by apply view_new_list, view_items_plain|]. simpl. eauto.
    + eexists. split; [done|]. simpl. rewrite list_lookup_middle by done.
      split; [done|]. by apply Hshape.
  - rewrite lookup_insert_ne by done. specialize (Hkeys k).
    destruct (expected g k es) as [|v|c]; try done.
    destruct Hkeys as (v & Hv & Hview & Hwell).
    exists v. split; [done|]. split; [|done].
    apply (view_agree (heap s)); [|done].
    intros l Hl. destruct st; [done|]. by apply agree_app.
Qed.

Lemma records_of_records k es :
  records_of k (records es) = omap dict_of_stored (stored_for k es).
Proof.
  unfold records_of, records, stored_for.
  induction es as [|[[key st] ws] es IH]; [done|].
  rewrite filter_cons. csimpl.
  destruct (dict_of_stored st) as [d|] eqn:Ed; csimpl.
  - rewrite filter_cons. simpl.
    case_decide; csimpl; rewrite ?Ed; by rewrite IH.
  - case_decide; csimpl; rewrite ?Ed; by rewrite IH.
Qed.

(** The model of a multi-record table holds its rows. *)
Lemma models_holds g s es :
  multi_record g = true -> models g s (records es) -> holds g s es.
Proof.
  intros Hmulti (m & Hm & Hkeys & _). exists m. split; [done|].
  intros k. specialize (Hkeys k). unfold expected. rewrite Hmulti.
  rewrite records_of_records in Hkeys.
  destruct (m !! k) as [v|] eqn:Ev.
  - destruct Hkeys as [Hne Hview].
    destruct (omap dict_of_stored (stored_for k es)) as [|d ds] eqn:Eds;
      [done|].
    exists v. split; [done|]. split; [done|]. intros _.
    destruct g; try done; by exists (d :: ds).
  - by rewrite Hkeys.
Qed.

Lemma loaded_rows_holds g s es : loaded_rows g s es -> holds g s es.
Proof.
  intros [_ H]. destruct (multi_record g) eqn:Hg; [|done].
  by apply models_holds.
Qed.

Lemma loaded_rows_bound g s es :
  loaded_rows g s es -> is_Some (globals s g).
Proof. intros H. apply loaded_rows_holds in H as (m & Hm & _). eauto. Qed.

Lemma warnings_of_app es1 es2 :
  warnings_of (es1 ++ es2) = warnings_of es1 ++ warnings_of es2.
Proof. unfold warnings_of. by rewrite bind_app. Qed.

Lemma rows_effect_nil s : rows_effect [] s s.
Proof. split; try done. simpl. destruct (_PrintWarnings s); by rewrite app_nil_r. Qed.

Lemma rows_effect_app es1 es2 s1 s2 s3 :
  rows_effect es1 s1 s2 -> rows_effect es2 s2 s3 ->
  rows_effect (es1 ++ es2) s1 s3.
Proof.
  intros [Hw1 Ho1 Hd1 Hs1] [Hw2 Ho2 Hd2 Hs2]. split; try congruence.
  rewrite Hs2, Hs1, Hw1, warnings_of_app.
  destruct (_PrintWarnings s1); by rewrite <- app_assoc.
Qed.

(** A row of a single-record table, stored, keeps the invariant of the
    load. *)
Lemma store_entry_step g s es eo :
  multi_record g = false ->
  (forall e, eo = Some e -> shape_ok g e.1.2) ->
  loaded_rows g s es ->
  loaded_rows g (store_entry g eo s) (es ++ option_list eo) /\
  rows_effect (option_list eo) s (store_entry g eo s).
Proof.
  intros Hsingle Hshape [Hshapes Hholds]. rewrite Hsingle in Hholds.
  destruct eo as [[[key st] ws]|]; simpl.
  - split.
    + split; [apply Forall_app; split; [done|]; constructor; [|done];
              by apply (Hshape (key, st, ws))|].
      rewrite Hsingle. apply holds_store; [done| |done].
      by apply (Hshape (key, st, ws)).
    + split; try done. simpl. unfold warnings_of. simpl.
      by rewrite app_nil_r.
  - rewrite app_nil_r. split; [split; [done|by rewrite Hsingle]|].
    apply rows_effect_nil.
Qed.

Lemma silent_contains g k : silent (contains g k).
Proof. intros s. unfold contains. by destruct (globals s g). Qed.

Lemma silent_setitem g k v : silent (setitem g k v).
Proof. intros s. unfold setitem. by destruct (globals s g). Qed.

Lemma silent_list_append v x : silent (list_append v x).
Proof.
  apply silent_bind; [apply silent_deref|].
  intros []; destruct v; try done.
Qed.

Lemma records_snoc es key d ws :
  records (es ++ [(key, Fresh (ODict d), ws)]) = records es ++ [(key, d)].
Proof. unfold records. by rewrite omap_app. Qed.

(** A row of a multi-record table: the step of [store_record], with the
    invariant of the load. *)
Lemma store_record_step g key d s es :
  multi_record g = true ->
  shape_ok g (Fresh (ODict d)) ->
  loaded_rows g s es ->
  exists s',
    (let* dataset := alloc (ODict d) in
     let* present := contains g key in
     if present then
       let* datasets := getitem g key in
       list_append datasets dataset
     else
       let* datasets := alloc (OList [dataset]) in
       setitem g key datasets) s = (Ok tt, s') /\
    loaded_rows g s' (es ++ [(key, Fresh (ODict d), [])]) /\
    rows_effect [(key, Fresh (ODict d), [])] s s'.
Proof.
  intros Hmulti Hshape [Hshapes Hmodels]. rewrite Hmulti in Hmodels.
  destruct (store_record g key d s (records es) Hmodels) as (s' & Hrun & Hs').
  exists s'. split; [done|]. split.
  - split; [apply Forall_app; split; [done|]; by constructor|].
    rewrite Hmulti. by rewrite records_snoc.
  - match type of Hrun with
    | ?c s = _ =>
        assert (Hframed : framed c) by framed;
        assert (Hsilent : silent c)
          by (repeat first
                [ progress intros
                | apply silent_contains | apply silent_setitem
                | apply silent_list_append | apply silent_getitem
                | apply silent_alloc | apply silent_bind
                | match goal with
                  | |- silent (if ?b then _ else _) => destruct b
                  end ]);
        specialize (Hframed s); specialize (Hsilent s);
        rewrite Hrun in Hframed, Hsilent
    end.
    destruct Hframed as [Ho Hd Hw _ _ _]. simpl in *.
    split; try done. rewrite Hsilent. unfold warnings_of. simpl.
    destruct (_PrintWarnings s); by rewrite app_nil_r.
Qed.

(** ** The loop of a loader *)

Lemma for_each_app {A} (xs ys : list A) body s :
  for_each (xs ++ ys) body s =
  match for_each xs body s with
  | (Ok _, s') => for_each ys body s'
  | (Raise e, s') => (Raise e, s')
  end.
Proof.
  revert s. induction xs as [|x xs IH]; intros s; [done|].
  simpl. rewrite !bind_run. destruct (body x s) as [[[]|e] s']; [|done].
  apply IH.
Qed.

(** Rows on which the body succeeds, one after the other. *)
Lemma run_rows_ok {R} g (body : R -> M unit)
    (spec : R -> option (option (string * stored * list string))) :
  (forall row eo s es,
     spec row = Some eo -> loaded_rows g s es ->
     exists s',
       body row s = (Ok tt, s') /\
       loaded_rows g s' (es ++ option_list eo) /\
       rows_effect (option_list eo) s s') ->
  forall rows eos s es,
    spec <$> rows = Some <$> eos ->
    loaded_rows g s es ->
    exists s',
      for_each rows body s = (Ok tt, s') /\
      loaded_rows g s' (es ++ omap id eos) /\
      rows_effect (omap id eos) s s'.
Proof.
  intros Hok. induction rows as [|row rows IH]; intros eos s es Hspec Hs.
  - symmetry in Hspec. apply fmap_nil_inv in Hspec as ->.
    exists s. rewrite app_nil_r. split; [done|]. split; [done|].
    apply rows_effect_nil.
  - destruct eos as [|eo eos]; [done|]. csimpl in Hspec.
    injection Hspec as Hrow Hrows.
    destruct (Hok row eo s es Hrow Hs) as (s1 & Hrun1 & Hs1 & Heff1).
    destruct (IH eos s1 _ Hrows Hs1) as (s2 & Hrun2 & Hs2 & Heff2).
    assert (Hcons : omap id (eo :: eos) = option_list eo ++ omap id eos).
    { by destruct eo. }
    rewrite Hcons.
    exists s2. split; [simpl; by rewrite bind_run, Hrun1|].
    split; [by rewrite app_assoc|]. by eapply rows_effect_app.
Qed.

(** Rows up to the first one on which the body raises: the loop raises
    there, and the cache holds the rows before it. *)
Lemma run_rows_fail {R} g (body : R -> M unit)
    (spec : R -> option (option (string * stored * list string))) :
  (forall row eo s es,
     spec row = Some eo -> loaded_rows g s es ->
     exists s',
       body row s = (Ok tt, s') /\
       loaded_rows g s' (es ++ option_list eo) /\
       rows_effect (option_list eo) s s') ->
  (forall row s,
     spec row = None -> is_Some (globals s g) ->
     exists e s',
       body row s = (Raise e, s') /\
       (e = IndexError \/ e = ValueError) /\ unwinds s s') ->
  forall rows eos rest s es,
    spec <$> rows = (Some <$> eos) ++ None :: rest ->
    loaded_rows g s es ->
    exists e s',
      for_each rows body s = (Raise e, s') /\
      (e = IndexError \/ e = ValueError) /\
      holds g s' (es ++ omap id eos) /\
      opened s' = opened s.
Proof.
  intros Hok Hfail rows eos rest s es Hspec Hs.
  apply fmap_app_inv in Hspec as (rows1 & rows2 & Hrows1 & Hrows2 & ->).
  destruct rows2 as [|bad rows2]; [done|]. csimpl in Hrows2.
  injection Hrows2 as Hbad _. symmetry in Hrows1, Hbad.
  destruct (run_rows_ok g body spec Hok rows1 eos s es Hrows1 Hs)
    as (s1 & Hrun1 & Hs1 & [_ Ho1 _ _]).
  destruct (Hfail bad s1 Hbad) as (e & s2 & Hrun2 & He & Hunwinds);
    [by eapply loaded_rows_bound|].
  exists e, s2. rewrite for_each_app, Hrun1. simpl.
  rewrite bind_run, Hrun2. split; [done|]. split; [done|].
  split.
  - eapply holds_unwinds; [|done]. by apply loaded_rows_holds.
  - destruct Hunwinds as [_ _ _ Ho2 _]. congruence.
Qed.

(** ** The loop bodies, row by row *)

Lemma bind_lift_None {A B} e (o : option A) (f : A -> M B) s :
  o = None -> bind (lift e o) f s = (Raise e, s).
Proof. by intros ->. Qed.

Lemma map_m_ints xs ns s :
  mapM builtin_int xs = Some ns ->
  map_m (fun x => let* n := int x in ret (VInt n)) xs s
  = (Ok (VInt <$> ns), s).
Proof.
  intros H. apply mapM_Some in H. revert s.
  induction H as [|x n xs ns Hx _ IH]; intros s; [done|].
  simpl. unfold int. rewrite bind_bind. erewrite bind_lift by eassumption.
  rewrite bind_ret, bind_run, IH. done.
Qed.

Lemma map_m_ints_None xs s :
  mapM builtin_int xs = None ->
  map_m (fun x => let* n := int x in ret (VInt n)) xs s
  = (Raise ValueError, s).
Proof.
  revert s. induction xs as [|x xs IH]; intros s H; [done|].
  simpl. unfold int. rewrite bind_bind. csimpl in H.
  destruct (builtin_int x) as [n|] eqn:Ex; simpl in H.
  - erewrite bind_lift by reflexivity. rewrite bind_ret, bind_run.
    destruct (mapM builtin_int xs) as [ns|] eqn:Exs; [done|].
    by rewrite IH.
  - by erewrite bind_lift_None by reflexivity.
Qed.

Lemma bind_map_m_ints {B} xs ns (f : list value -> M B) s :
  mapM builtin_int xs = Some ns ->
  bind (map_m (fun x => let* n := int x in ret (VInt n)) xs) f s
  = f (VInt <$> ns) s.
Proof. intros H. by rewrite bind_run, (map_m_ints xs ns s H). Qed.

Lemma bind_map_m_ints_None {B} xs (f : list value -> M B) s :
  mapM builtin_int xs = None ->
  bind (map_m (fun x => let* n := int x in ret (VInt n)) xs) f s
  = (Raise ValueError, s).
Proof. intros H. by rewrite bind_run, (map_m_ints_None xs s H). Qed.

Lemma store_entry_plain g key v s m :
  globals s g = Some m ->
  set_globals (upd g (Some (<[key := v]> m)) (globals s)) s =
  store_entry g (Some (key, Plain v, [])) s.
Proof.
  intros Hm. unfold store_entry, set_globals. rewrite Hm. simpl.
  f_equal. destruct (_PrintWarnings s); by rewrite app_nil_r.
Qed.

Lemma store_entry_fresh g key o s m :
  globals s g = Some m ->
  set_globals (upd g (Some (<[key := VRef (length (heap s))]> m)) (globals s))
    (set_heap (heap s ++ [o]) s) =
  store_entry g (Some (key, Fresh o, [])) s.
Proof.
  intros Hm. unfold store_entry, set_globals, set_heap. rewrite Hm. simpl.
  f_equal. destruct (_PrintWarnings s); by rewrite app_nil_r.
Qed.

(** The option a row specification looks at first. *)
Ltac head_option t :=
  lazymatch t with
  | @mbind _ _ _ _ _ ?o => head_option o
  | @fmap _ _ _ _ _ ?o => head_option o
  | match ?o with Some _ => _ | None => _ end => head_option o
  | if ?b then _ else _ => head_option b
  | _ => t
  end.

(** Splits on the next column of the row specification [H]. *)
Ltac spec_step H :=
  lazymatch type of H with
  | Some _ = _ => fail
  | None = _ => fail
  | ?lhs = _ =>
      let o := head_option lhs in
      destruct o eqn:?; simpl in H
  end.

(** Goes through the columns of a row specification [H] that gave an
    outcome; the body then runs to its end. *)
Ltac spec_ok H := repeat (spec_step H; [|try done]); simplify_eq.

(** Runs the loop body through the columns whose outcome is known. *)
Ltac run_columns :=
  unfold int_at, float_at, index, str_index, int, float;
  repeat first
    [ rewrite bind_bind
    | erewrite bind_lift by eassumption
    | rewrite bind_ret
    | erewrite bind_map_m_ints by eassumption
    | rewrite bind_alloc
    | erewrite bind_dict_set_last by (simpl; reflexivity)
    | rewrite bind_warn_if
    | match goal with
      | H : ?b = _ |- context [if ?b then _ else _] => rewrite H
      end ];
  cbv beta.

(** Closes a row that ran to its end: the state is the one
    [store_entry] gives. *)
Ltac row_stores Hm :=
  first
    [ reflexivity
    | first [ erewrite <- store_entry_plain by exact Hm
            | erewrite <- store_entry_fresh by exact Hm ];
      unfold setitem; simpl; by rewrite Hm ].

(** Closes the case of a row specification that found a column missing
    or unreadable: the body raises there. *)
Ltac row_raises :=
  run_columns;
  first [ erewrite bind_lift_None by eassumption
        | erewrite bind_map_m_ints_None by eassumption ];
  eexists _, _; split; [reflexivity|]; split; [by auto|];
  split; simpl; try done; by apply prefix_app_r.

#[local] Abbreviation loads_by := (loads_by builtin_int builtin_float).

(** Goes through the columns of a row specification [H] that gave no
    outcome: the body raises at the first column that is missing or
    unreadable. *)
Ltac spec_raises H :=
  repeat (spec_step H; [|first [done | row_raises]]); done.

(** Closes a goal [shape_ok g st] for a stored value read off a row
    specification. *)
Ltac shape_done :=
  simpl;
  solve [ eauto
        | eexists; split; [reflexivity|done]
        | eexists; split; [reflexivity|];
          apply Forall_fmap, Forall_true; done ].

Lemma bind_assign {B} g (f : unit -> M B) s :
  bind (assign_empty_dict g) f s =
  f tt (set_globals (upd g (Some ∅) (globals s)) s).
Proof. reflexivity. Qed.

Lemma bind_open_text {B} name lines (f : list string -> M B) s :
  text_files (data_directory s) !! name = Some lines ->
  bind (open_text name) f s = f lines (set_opened (opened s ++ [name]) s).
Proof. intros H. unfold bind, open_text. by rewrite H. Qed.

Lemma bind_open_csv {B} name rows (f : list (list string) -> M B) s :
  csv_files (data_directory s) !! name = Some rows ->
  bind (open_csv name) f s = f rows (set_opened (opened s ++ [name]) s).
Proof. intros H. unfold bind, open_csv. by rewrite H. Qed.

Lemma bind_next {B} header rows (f : list (list string) -> M B) s :
  bind (next (header :: rows)) f s = f rows s.
Proof. reflexivity. Qed.

(** Brings a lookup in an unloaded dataset to the loop of its loader, and
    a lookup in a loaded one to what follows the loader. *)
Ltac to_loop Hg :=
  eexists; split;
  [ unfold_lookup; rewrite bind_run; simpl; rewrite Hg;
    rewrite ?bind_bind, bind_assign, ?bind_bind;
    first [ erewrite bind_open_text by (simpl; eassumption)
          | erewrite bind_open_csv by (simpl; eassumption) ];
    rewrite ?bind_bind, ?bind_next; reflexivity
  | let s' := fresh "s'" in
    let m := fresh "m" in
    let Hm := fresh "Hm" in
    intros s' [m Hm]; unfold_lookup; rewrite bind_run; simpl; rewrite Hm;
    by rewrite bind_ret ].

Lemma crustal_abundance_loader symbol copy s lines :
  globals s _ElementCrustalAbundances = None ->
  text_files (data_directory s) !! "crustal_abundance.txt" = Some lines ->
  exists body,
    loads_by _ElementCrustalAbundances symbol copy s lines body
      (text_row (crustal_abundance_entry builtin_float)).
Proof.
  intros Hg Hfile. eexists. split; [|split].
  - to_loop Hg.
  - intros line eo s0 es Hspec Hs0.
    destruct (loaded_rows_bound _ _ _ Hs0) as [m Hm].
    exists (store_entry _ElementCrustalAbundances eo s0).
    split; [|apply store_entry_step; try done].
    + unfold text_row, crustal_abundance_entry in Hspec. spec_ok Hspec.
      all: run_columns; row_stores Hm.
    + intros e ->. unfold text_row, crustal_abundance_entry in Hspec.
      spec_ok Hspec. shape_done.
  - intros line s0 Hspec [m Hm].
    unfold text_row, crustal_abundance_entry in Hspec. spec_raises Hspec.
Qed.

End properties.

(** * Worked runs *)

(** The readers of decimal literals on the fields used below. *)
Example decimal_float_sentinel :
  decimal_float "1.6" = Some 1.6%float /\
  decimal_float "0.0" = Some 0%float /\
  decimal_float "-13.6" = Some (-13.6)%float /\
  decimal_int "-2" = Some (-2)%Z /\
  decimal_int "x" = None.
Proof. vm_compute. done. Qed.

Example strip_line : strip "  Fe 2 3 6
" = "Fe 2 3 6".
Proof. reflexivity. Qed.

Example split_line : split "Fe  2 3	6" = ["Fe"; "2"; "3"; "6"].
Proof. reflexivity. Qed.

(** C2, as stated, fails.  The second line of the file does not parse, so
    the first lookup raises [ValueError]; the cache variable is then a
    dictionary that holds the entry read from the first line, and the next
    lookup answers from it without opening the file again. *)
Lemma failed_load_keeps_partial_cache :
  let first := lookup decimal_int decimal_float _ElementOxidationStates
                 "Fe" false (initial_state broken_oxidation_states) in
  let second := lookup decimal_int decimal_float _ElementOxidationStates
                  "Fe" false first.2 in
  first.1 = Raise ValueError /\
  globals first.2 _ElementOxidationStates <> None /\
  second.1 = Ok (VRef 0) /\
  heap second.2 !! 0 = Some (OList [VInt 2; VInt 3]) /\
  opened second.2 = ["oxidation_states.txt"].
Proof. vm_compute. by repeat split. Qed.

Lemma failed_load_is_not_retried_witness :
  let s := initial_state broken_oxidation_states in
  let s1 := (lookup decimal_int decimal_float _ElementOxidationStates
               "Fe" false s).2 in
  is_Some (globals s1 _ElementOxidationStates) /\
  opened s1 = opened s ++ [backing_file _ElementOxidationStates] /\
  forall symbol' copy',
    opened (lookup decimal_int decimal_float _ElementOxidationStates
              symbol' copy' s1).2 = opened s1 /\
    globals (lookup decimal_int decimal_float _ElementOxidationStates
               symbol' copy' s1).2 = globals s1.
Proof.
  apply (failed_load_is_not_retried decimal_int decimal_float
           _ElementOxidationStates "Fe" false
           (initial_state broken_oxidation_states) ValueError).
  - reflexivity.
  - vm_compute. reflexivity.
Defined.

Lemma s_eigenvalue_before_eigenvalue_raises_witness :
  (LookupElementSEigenvalue decimal_float "H"
     (initial_state eigenvalue_files)).1 = Raise TypeError /\
  globals (LookupElementSEigenvalue decimal_float "H"
             (initial_state eigenvalue_files)).2
    _ElementSEigenvalues = Some ∅.
Proof.
  apply (s_eigenvalue_before_eigenvalue_raises decimal_float "H"
           (initial_state eigenvalue_files)
           ["Element"; "s_eigenvalue"] ["H"; "-6.5"] [["He"; "-15.5"]]
           "-6.5" (-6.5)%float).
  - reflexivity.
  - reflexivity.
  - vm_compute. reflexivity.
  - reflexivity.
  - vm_compute. reflexivity.
Defined.

(** C1 on a concrete run.  [LookupElementEigenvalue "H"] loads its file
    and returns -13.6.  The first [LookupElementSEigenvalue "H"] then
    returns [None] although ["H"] is in [Eigenvalues_s.csv]: its own cache
    is bound to an empty dictionary, and the s-eigenvalue of ["H"] has
    overwritten the eigenvalue in [_ElementEigenvalues], which
    [LookupElementEigenvalue "H"] now returns. *)
Theorem s_eigenvalue_lookup_misses_present_symbol :
  let first := LookupElementEigenvalue decimal_float "H"
                 (initial_state eigenvalue_files) in
  let second := LookupElementSEigenvalue decimal_float "H" first.2 in
  let third := LookupElementEigenvalue decimal_float "H" second.2 in
  first.1 = Ok (VFloat (-13.6)) /\
  second.1 = Ok VNone /\
  globals second.2 _ElementSEigenvalues = Some ∅ /\
  globals second.2 _ElementEigenvalues <> globals first.2 _ElementEigenvalues /\
  third.1 = Ok (VFloat (-6.5)).
Proof. vm_compute. by repeat split. Qed.

(** C4 on a concrete run.  ["Xx"] is in neither eigenvalue file.  In a
    fresh process, with warnings off or on, [LookupElementSEigenvalue
    "Xx"] raises [TypeError] instead of returning [None]. *)
Theorem s_eigenvalue_lookup_of_absent_symbol_raises :
  let quiet := initial_state eigenvalue_files in
  let verbose := (ToggleWarnings true quiet).2 in
  (lookup decimal_int decimal_float _ElementSEigenvalues "Xx" false quiet).1
    = Raise TypeError /\
  (lookup decimal_int decimal_float _ElementSEigenvalues "Xx" false verbose).1
    = Raise TypeError.
Proof. vm_compute. by split. Qed.

(** C3, as stated, fails.  The table is loaded with warnings off; warnings
    are then switched on and ["Xx"] is looked up again.  The record
    returned still has the default covalent radius 1.6, the switch is on,
    and nothing has been printed. *)
Lemma enabling_warnings_after_load_prints_no_sentinel_warning :
  let loaded := (lookup decimal_int decimal_float
                   _ElementOpenBabelDerivedData "Xx" false
                   (initial_state element_files)).2 in
  let later := lookup decimal_int decimal_float
                 _ElementOpenBabelDerivedData "Xx" false
                 (ToggleWarnings true loaded).2 in
  _PrintWarnings later.2 = true /\
  later.1 = Ok (VRef 1) /\
  (exists d, heap later.2 !! 1 = Some (ODict d) /\
             d !! "RCov" = Some (VFloat 1.6)) /\
  stdout later.2 = [].
Proof.
  vm_compute. split; [done|]. split; [done|]. split; [|done].
  eexists. split; [reflexivity|]. vm_compute. reflexivity.
Qed.

Lemma warning_switch_takes_effect_witness :
  let s := (lookup decimal_int decimal_float
              _ElementOpenBabelDerivedData "O" true
              (initial_state element_files)).2 in
  let run := lookup decimal_int decimal_float
               _ElementOpenBabelDerivedData "Zz" true
               (ToggleWarnings true s).2 in
  let m := default ∅ (globals run.2 _ElementOpenBabelDerivedData) in
  (m !! "Zz" = None ->
   VNone = VNone /\
   exists out,
     stdout run.2 =
     out ++ [not_found_warning _ElementOpenBabelDerivedData "Zz"]) /\
  (is_Some (globals s _ElementOpenBabelDerivedData) ->
   is_Some (m !! "Zz") -> stdout run.2 = stdout s).
Proof.
  intros s run m.
  apply (warning_switch_takes_effect decimal_int decimal_float
           _ElementOpenBabelDerivedData "Zz" true true s VNone run.2 m).
  - vm_compute. reflexivity.
  - vm_compute. reflexivity.
Defined.

Lemma uncopied_lookup_returns_cached_object_witness :
  let run := lookup decimal_int decimal_float
               _ElementOpenBabelDerivedData "O" false
               (initial_state element_files) in
  let m := default ∅ (globals run.2 _ElementOpenBabelDerivedData) in
  m !! "O" = Some (VRef 0) /\
  lookup decimal_int decimal_float _ElementOpenBabelDerivedData "O" false
    run.2 = (Ok (VRef 0), run.2).
Proof.
  intros run m.
  apply (uncopied_lookup_returns_cached_object decimal_int decimal_float
           _ElementOpenBabelDerivedData "O" (initial_state element_files)
           (VRef 0) run.2 m).
  - vm_compute. reflexivity.
  - vm_compute. reflexivity.
  - vm_compute. eauto.
Defined.

(** C7, as stated, fails for the solid-state energy table, a
    record-valued dataset whose lookup has no [copy] argument: two lookups
    of ["H"] return the same object, and once the caller has assigned to a
    field of it the next lookup returns the changed record. *)
Lemma sse_lookups_share_the_cached_record :
  let first := lookup decimal_int decimal_float _ElementSSEData "H" true
                 (initial_state csv_samples) in
  let second := lookup decimal_int decimal_float _ElementSSEData "H" true
                  first.2 in
  let changed := (dict_set (VRef 0) "SolidStateEnergy" (VFloat 0) second.2).2 in
  let third := lookup decimal_int decimal_float _ElementSSEData "H" true
                 changed in
  first.1 = Ok (VRef 0) /\
  second.1 = Ok (VRef 0) /\
  third.1 = Ok (VRef 0) /\
  view (heap third.2) (VRef 0) <> view (heap first.2) (VRef 0).
Proof. vm_compute. by repeat split. Qed.

Lemma copied_lookups_are_independent_witness :
  let g := _ElementShannonRadiiData in
  let s := (lookup decimal_int decimal_float g "O" false
              (initial_state csv_samples)).2 in
  let m := default ∅ (globals s g) in
  let c := default (CList []) (view (heap s) (VRef 1)) in
  exists v1 s1,
    lookup decimal_int decimal_float g "Ti" true s = (Ok v1, s1) /\
    view (heap s1) v1 = Some c /\
    Forall (fun l => length (heap s) <= l < length (heap s1))
           (owned (heap s1) v1) /\
    forall s' copy',
      globals s' = globals s1 ->
      length (heap s1) <= length (heap s') ->
      (forall l, l < length (heap s) -> heap s' !! l = heap s1 !! l) ->
      exists v2 s2,
        lookup decimal_int decimal_float g "Ti" copy' s' = (Ok v2, s2) /\
        view (heap s2) v2 = Some c /\
        (copy' = true ->
         Forall (fun l => length (heap s1) <= l) (owned (heap s2) v2)).
Proof.
  intros g s m c.
  apply (copied_lookups_are_independent decimal_int decimal_float
           g "Ti" s m (VRef 1) c).
  - reflexivity.
  - vm_compute. reflexivity.
  - vm_compute. reflexivity.
  - vm_compute. reflexivity.
  - exists (match c with
            | CList items =>
                omap (fun i => match i with
                               | IDict d => Some d
                               | IVal _ => None
                               end) items
            | CDict _ => []
            end).
    vm_compute. reflexivity.
Defined.

Lemma multi_record_lookup_keeps_file_order_witness :
  let g := _ElementSSE2015Data in
  let rows := default [] (csv_files csv_samples !! backing_file g) in
  let recs := default [] (mapM (record_of decimal_int decimal_float g) rows) in
  exists v s',
    lookup decimal_int decimal_float g "Ti" true (initial_state csv_samples)
      = (Ok v, s') /\
    view (heap s') v = Some (CList (IDict <$> records_of "Ti" recs)).
Proof.
  intros g rows recs.
  apply (multi_record_lookup_keeps_file_order decimal_int decimal_float
           g "Ti" true (initial_state csv_samples) rows rows recs).
  - reflexivity.
  - reflexivity.
  - vm_compute. reflexivity.
  - reflexivity.
  - vm_compute. reflexivity.
  - vm_compute. discriminate.
Defined.

(** The sample scenario of C6: two rows for titanium, oxidation states 2
    and then 4, give a list of two records with these states in that
    order. *)
Example sse2015_titanium :
  let run := lookup decimal_int decimal_float _ElementSSE2015Data "Ti" true
               (initial_state csv_samples) in
  exists v d1 d2,
    run.1 = Ok v /\
    view (heap run.2) v = Some (CList [IDict d1; IDict d2]) /\
    d1 !! "OxidationState" = Some (VInt 2) /\
    d2 !! "OxidationState" = Some (VInt 4).
Proof.
  vm_compute. eexists _, _, _. split; [reflexivity|].
  split; [reflexivity|]. vm_compute. by split.
Qed.
